(** * Resumable upload engine of decomposedfs (package [upload])

    A shallow embedding of [Upload.WriteChunk], [Upload.FinishUpload],
    [Upload.Terminate], [Upload.ConcatUploads], [Upload.Finalize],
    [Upload.checkHash], [Upload.cleanup], [Cleanup], [Upload.URL] and
    [joinurl], over an explicit model of the file system, the session store
    and the collaborators the upload talks to (tree, lookup, publisher, token
    signer).  Every call to the operating system or to a collaborator is
    recorded in a trace and may be made to fail by a fault oracle, so the
    theorems quantify over all failure scenarios. *)

From Stdlib Require Import ZArith List String Ascii Bool Lia.
From Stdlib.Strings Require Import Byte.
From stdpp Require Import base option list strings gmap fin_maps.

Local Open Scope string_scope.
Local Open Scope Z_scope.
Local Open Scope list_scope.

(** ** Go values *)

(** [int64] arithmetic: the result of [+] wraps around. *)
Definition min_int64 : Z := - 2 ^ 63.
Definition max_int64 : Z := 2 ^ 63 - 1.
Definition in_int64 (z : Z) : Prop := min_int64 <= z <= max_int64.
Definition int64_wrap (z : Z) : Z := (z + 2 ^ 63) mod 2 ^ 64 - 2 ^ 63.
Definition int64_add (a b : Z) : Z := int64_wrap (a + b).

(** Error values.  [io.ErrUnexpectedEOF], [fs.ErrNotExist] and
    [os.ErrInvalid] are the sentinels the code and the [os] package use;
    [PathError] is [*fs.PathError], [Wrapped] is the result of
    [errors.Wrap]/[errors.Wrapf], [ChecksumMismatch] is
    [errtypes.ChecksumMismatch] and [ErrOther] any other error value. *)
Inductive error : Type :=
  | ErrUnexpectedEOF
  | ErrNotExist
  | ErrInvalid
  | ErrOther (msg : string)
  | ChecksumMismatch (msg : string)
  | PathError (op path : string) (cause : error)
  | Wrapped (cause : error) (msg : string).

Fixpoint error_eqb (a b : error) : bool :=
  match a, b with
  | ErrUnexpectedEOF, ErrUnexpectedEOF => true
  | ErrNotExist, ErrNotExist => true
  | ErrInvalid, ErrInvalid => true
  | ErrOther m, ErrOther m' => String.eqb m m'
  | ChecksumMismatch m, ChecksumMismatch m' => String.eqb m m'
  | PathError o p c, PathError o' p' c' =>
      String.eqb o o' && String.eqb p p' && error_eqb c c'
  | Wrapped c m, Wrapped c' m' => error_eqb c c' && String.eqb m m'
  | _, _ => false
  end.

(** [errors.Is err target]: [err] or an error it wraps is [target]. *)
Fixpoint errors_Is (err target : error) : bool :=
  error_eqb err target ||
  match err with
  | PathError _ _ c => errors_Is c target
  | Wrapped c _ => errors_Is c target
  | _ => false
  end.

(** ** Strings and bytes *)

(** [strings.HasPrefix s prefix] and [strings.HasSuffix s suffix]. *)
Definition strings_HasPrefix (s pre : string) : bool := String.prefix pre s.
Definition strings_HasSuffix (s suf : string) : bool :=
  String.prefix (String.rev suf) (String.rev s).

Definition hexdigit (n : N) : ascii :=
  match n with
  | 0%N => "0" | 1%N => "1" | 2%N => "2" | 3%N => "3"
  | 4%N => "4" | 5%N => "5" | 6%N => "6" | 7%N => "7"
  | 8%N => "8" | 9%N => "9" | 10%N => "a" | 11%N => "b"
  | 12%N => "c" | 13%N => "d" | 14%N => "e" | _ => "f"
  end%char.

(** [hex.EncodeToString]: two lower-case hexadecimal digits per byte. *)
Fixpoint hex_EncodeToString (bs : list byte) : string :=
  match bs with
  | [] => ""
  | b :: bs' =>
      let n := Byte.to_N b in
      String (hexdigit (n / 16)) (String (hexdigit (n mod 16)) (hex_EncodeToString bs'))
  end.

(** [fmt.Sprintf("%x", s)] on a string [s]: the hex encoding of its bytes. *)
Definition fmt_x (s : string) : string :=
  hex_EncodeToString (list_byte_of_string s).

(** ** Data model *)

(** [tus.Session], with the fields the upload reads or writes. *)
Record tus_Session : Type := mkSession {
  ID : string;
  BinPath : string;
  Offset : Z;
  Size : Z;
  SizeIsDeferred : bool;
  ChecksumSHA1 : string;
  ChecksumMD5 : string;
  ChecksumADLER32 : string;
  SpaceRoot : string;
  NodeID : string;
  VersionsPath : string;
  LockID : string;
  Filename : string;
  SizeDiff : Z
}.

(** [node.Node]: identity plus the paths its methods [InternalPath] and
    [ParentPath] resolve to. *)
Record node_Node : Type := mkNode {
  SpaceID : string;
  NID : string;
  Name : string;
  InternalPath : string;
  ParentPath : string
}.

(** The part of [context.Context] the upload touches. *)
Record Context : Type := mkContext {
  ctxLockID : option string;
  ctxUser : option string
}.

(** [options.TokenOptions]. *)
Record options_TokenOptions : Type := mkTokenOptions {
  DownloadEndpoint : string;
  DataGatewayEndpoint : string;
  TransferExpires : Z;
  TransferSharedSecret : string
}.

(** [Upload].  [pub] is [true] when a publisher is configured
    ([upload.pub != nil]); [lu], [tp] and [log] are handles into the world
    below. *)
Record Upload : Type := mkUpload {
  Ctx : Context;
  Session : tus_Session;
  Node : option node_Node;
  pub : bool;
  async : bool;
  tknopts : options_TokenOptions
}.

Definition set_Offset (s : tus_Session) (o : Z) : tus_Session :=
  mkSession (ID s) (BinPath s) o (Size s) (SizeIsDeferred s) (ChecksumSHA1 s)
    (ChecksumMD5 s) (ChecksumADLER32 s) (SpaceRoot s) (NodeID s)
    (VersionsPath s) (LockID s) (Filename s) (SizeDiff s).

Definition set_Session (u : Upload) (s : tus_Session) : Upload :=
  mkUpload (Ctx u) s (Node u) (pub u) (async u) (tknopts u).
Definition set_Node (u : Upload) (n : option node_Node) : Upload :=
  mkUpload (Ctx u) (Session u) n (pub u) (async u) (tknopts u).
Definition set_Ctx (u : Upload) (c : Context) : Upload :=
  mkUpload c (Session u) (Node u) (pub u) (async u) (tknopts u).

(** [ctxpkg.ContextSetLockID]. *)
Definition ContextSetLockID (c : Context) (l : string) : Context :=
  mkContext (Some l) (ctxUser c).

(** ** The world: file system, session store, collaborators *)

(** A file-system entry: its bytes and its extended attributes (the node
    metadata). *)
Record File : Type := mkFile {
  content : list byte;
  xattrs : gmap string (list byte)
}.

(** Calls that leave the upload: the operating system, the session store,
    the lookup, the tree and the publisher. *)
Inductive Call : Type :=
  | COpenFile (path : string)
  | COpen (path : string)
  | CRead (path : string)
  | CWrite (path : string)
  | CRemove (path : string)
  | CRemoveAll (path : string)
  | CRemoveItem (path : string)
  | CCopyMetadata (src dst : string)
  | CPurge (id : string)
  | CCreateNodeForUpload (id : string) (attrs : gmap string (list byte))
  | CReadNode (spaceRoot nodeID : string)
  | CPublish (uploadID url : string)
  | CWriteBlob (nodeID binPath : string)
  | CPropagate (nodeID : string) (sizeDiff : Z)
  | CUnmarkProcessing (nodeID uploadID : string).

Inductive Level : Type := Info | Error.

Record LogEntry : Type := mkLog {
  level : Level;
  message : string;
  cause : option error
}.

(** [faults] decides, from the number of calls made so far and the call,
    whether the call fails: [Some (k, e)] makes it fail with [e]; for a read
    or a write, after [k] bytes went through. *)
Record World : Type := mkWorld {
  files : gmap string File;
  sessions : gset string;
  faults : nat -> Call -> option (nat * error);
  trace : list Call;
  logs : list LogEntry;
  clock : Z
}.

Definition set_files (w : World) (f : gmap string File) : World :=
  mkWorld f (sessions w) (faults w) (trace w) (logs w) (clock w).
Definition set_sessions (w : World) (s : gset string) : World :=
  mkWorld (files w) s (faults w) (trace w) (logs w) (clock w).
Definition set_trace (w : World) (t : list Call) : World :=
  mkWorld (files w) (sessions w) (faults w) t (logs w) (clock w).
Definition set_logs (w : World) (l : list LogEntry) : World :=
  mkWorld (files w) (sessions w) (faults w) (trace w) l (clock w).

(** Computations over the world. *)
Definition IO (A : Type) : Type := World -> A * World.

Definition ret {A : Type} (a : A) : IO A := fun w => (a, w).
Definition bind {A B : Type} (m : IO A) (k : A -> IO B) : IO B :=
  fun w => let (a, w') := m w in k a w'.

Notation "'let*' x ':=' m 'in' k" := (bind m (fun x => k))
  (at level 10, x pattern, m at level 100, k at level 200).

(** Record the call and ask the oracle for its fate. *)
Definition call (c : Call) : IO (option (nat * error)) :=
  fun w => (faults w (length (trace w)) c, set_trace w (trace w ++ [c])).

Definition log_Info (m : string) (e : error) : IO unit :=
  fun w => (tt, set_logs w (logs w ++ [mkLog Info m (Some e)])).
Definition log_Error (m : string) (e : error) : IO unit :=
  fun w => (tt, set_logs w (logs w ++ [mkLog Error m (Some e)])).

(** ** Operating-system primitives *)

(** An [io.Reader]: a stream handed in by the caller (a request body), which
    delivers [data] and then ends with [io.EOF] ([fin = None]) or with the
    error [fin]; or an [*os.File] opened for reading, [None] being the nil
    pointer. *)
Inductive Reader : Type :=
  | Stream (data : list byte) (fin : option error)
  | FileReader (f : option string).

Definition exists_file (w : World) (p : string) : bool :=
  bool_decide (is_Some (files w !! p)).

(** [os.OpenFile(path, os.O_WRONLY|os.O_APPEND, perm)]: no [O_CREATE], so a
    missing file is an error. *)
Definition os_OpenFile (path : string) : IO (string + error) :=
  let* r := call (COpenFile path) in
  fun w =>
    match r with
    | Some (_, e) => (inr e, w)
    | None =>
        if exists_file w path then (inl path, w)
        else (inr (PathError "open" path ErrNotExist), w)
    end.

(** [os.Open(path)]. *)
Definition os_Open (path : string) : IO (string + error) :=
  let* r := call (COpen path) in
  fun w =>
    match r with
    | Some (_, e) => (inr e, w)
    | None =>
        if exists_file w path then (inl path, w)
        else (inr (PathError "open" path ErrNotExist), w)
    end.

Definition file_content (w : World) (p : string) : list byte :=
  match files w !! p with
  | Some f => content f
  | None => []
  end.

(** Read a reader to its end: the bytes it delivers and how it ends.  A nil
    [*os.File] delivers nothing and ends with [os.ErrInvalid]. *)
Definition drain (r : Reader) : IO (list byte * option error) :=
  match r with
  | Stream d fin => ret (d, fin)
  | FileReader None => ret ([], Some ErrInvalid)
  | FileReader (Some p) =>
      let* r := call (CRead p) in
      fun w =>
        match r with
        | Some (k, e) => ((take k (file_content w p), Some e), w)
        | None => ((file_content w p, None), w)
        end
  end.

Definition append_bytes (p : string) (bs : list byte)
    (fs : gmap string File) : gmap string File :=
  alter (fun f => mkFile (content f ++ bs) (xattrs f)) p fs.

(** [io.Copy(file, src)] into a file opened with [O_APPEND]: the bytes read
    are appended until the reader ends or a write fails; the result is the
    number of bytes written and the first error other than [io.EOF]. *)
Definition io_Copy (dst : string) (src : Reader) : IO (Z * option error) :=
  let* (data, fin) := drain src in
  let* r := call (CWrite dst) in
  fun w =>
    match r with
    | Some (k, e) =>
        if (k <? length data)%nat
        then ((Z.of_nat k, Some e), set_files w (append_bytes dst (take k data) (files w)))
        else ((Z.of_nat (length data), fin), set_files w (append_bytes dst data (files w)))
    | None => ((Z.of_nat (length data), fin), set_files w (append_bytes dst data (files w)))
    end.

(** ** Chunk ingestion *)

(** [Upload.WriteChunk]. *)
Definition WriteChunk (u : Upload) (offset : Z) (src : Reader)
    : IO (Z * option error * Upload) :=
  let* r := os_OpenFile (BinPath (Session u)) in
  match r with
  | inr err => ret (0, Some err, u)
  | inl file =>
      let* (n, err) := io_Copy file src in
      let fatal :=
        match err with
        | Some e => negb (error_eqb e ErrUnexpectedEOF)
        | None => false
        end in
      if fatal then ret (n, err, u)
      else
        ret (n, None,
             set_Session u
               (set_Offset (Session u) (int64_add (Offset (Session u)) n)))
  end.

(** ** Digests

    The three digests of the Go standard library that [FinishUpload]
    computes ([hash/adler32], [crypto/md5], [crypto/sha1]), on 32-bit words
    held in [Z]. *)
Module Digest.

Definition w32 (z : Z) : Z := z mod 2 ^ 32.
Definition not32 (z : Z) : Z := Z.lxor z 0xffffffff.
Definition rotl (x : Z) (n : Z) : Z :=
  w32 (Z.lor (Z.shiftl x n) (Z.shiftr x (32 - n))).

Definition byteZ (b : byte) : Z := Z.of_N (Byte.to_N b).
Definition Zbyte (z : Z) : byte :=
  match Byte.of_N (Z.to_N (z mod 256)) with
  | Some b => b
  | None => x00
  end.

Definition be32 (x : Z) : list byte :=
  [Zbyte (Z.shiftr x 24); Zbyte (Z.shiftr x 16); Zbyte (Z.shiftr x 8); Zbyte x].
Definition le32 (x : Z) : list byte :=
  [Zbyte x; Zbyte (Z.shiftr x 8); Zbyte (Z.shiftr x 16); Zbyte (Z.shiftr x 24)].
Definition be64 (x : Z) : list byte := be32 (Z.shiftr x 32) ++ be32 x.
Definition le64 (x : Z) : list byte := le32 x ++ le32 (Z.shiftr x 32).

Definition word_be (bs : list byte) : Z :=
  fold_left (fun acc b => acc * 256 + byteZ b) bs 0.
Definition word_le (bs : list byte) : Z := word_be (rev bs).

(** Cut a list into pieces of [k] elements. *)
Fixpoint pieces {A : Type} (fuel k : nat) (l : list A) : list (list A) :=
  match fuel, l with
  | O, _ => []
  | _, [] => []
  | S fuel', _ => take k l :: pieces fuel' k (drop k l)
  end.

Definition split_into {A : Type} (k : nat) (l : list A) : list (list A) :=
  pieces (length l) k l.

(** Padding shared by MD5 and SHA-1: a one bit, zeros up to 56 modulo 64,
    then the length in bits on 64 bits. *)
Definition pad (len64 : Z -> list byte) (m : list byte) : list byte :=
  let n := Z.of_nat (length m) in
  m ++ [x80] ++ repeat x00 (Z.to_nat ((55 - n) mod 64)) ++ len64 (8 * n).

(** *** Adler-32 *)

Definition adler32_mod : Z := 65521.

Definition adler32_update (st : Z * Z) (b : byte) : Z * Z :=
  let (a, b') := st in
  let a' := (a + byteZ b) mod adler32_mod in
  (a', (b' + a') mod adler32_mod).

Definition adler32_Sum (m : list byte) : list byte :=
  let (a, b) := fold_left adler32_update m (1, 0) in
  be32 (Z.lor (Z.shiftl b 16) a).

(** *** SHA-1 *)

Definition sha1_round (st : Z * Z * Z * Z * Z * list Z) (i : nat)
    : Z * Z * Z * Z * Z * list Z :=
  let '(a, b, c, d, e, ws) := st in
  let wi := nth 0 ws 0 in
  let wnew :=
    rotl (Z.lxor (Z.lxor (nth 13 ws 0) (nth 8 ws 0))
                 (Z.lxor (nth 2 ws 0) (nth 0 ws 0))) 1 in
  let '(f, k) :=
    if (i <? 20)%nat then (Z.lor (Z.land b c) (Z.land (not32 b) d), 0x5A827999)
    else if (i <? 40)%nat then (Z.lxor (Z.lxor b c) d, 0x6ED9EBA1)
    else if (i <? 60)%nat then
      (Z.lor (Z.lor (Z.land b c) (Z.land b d)) (Z.land c d), 0x8F1BBCDC)
    else (Z.lxor (Z.lxor b c) d, 0xCA62C1D6) in
  let t := w32 (rotl a 5 + f + e + k + wi) in
  (t, a, rotl b 30, c, d, tl ws ++ [wnew]).

Definition sha1_block (h : Z * Z * Z * Z * Z) (blk : list byte)
    : Z * Z * Z * Z * Z :=
  let '(h0, h1, h2, h3, h4) := h in
  let ws := map word_be (split_into 4 blk) in
  let '(a, b, c, d, e, _) :=
    fold_left sha1_round (seq 0 80) (h0, h1, h2, h3, h4, ws) in
  (w32 (h0 + a), w32 (h1 + b), w32 (h2 + c), w32 (h3 + d), w32 (h4 + e)).

Definition sha1_Sum (m : list byte) : list byte :=
  let '(h0, h1, h2, h3, h4) :=
    fold_left sha1_block (split_into 64 (pad be64 m))
      (0x67452301, 0xEFCDAB89, 0x98BADCFE, 0x10325476, 0xC3D2E1F0) in
  be32 h0 ++ be32 h1 ++ be32 h2 ++ be32 h3 ++ be32 h4.

(** *** MD5 *)

Definition md5_K : list Z :=
  [ 0xd76aa478; 0xe8c7b756; 0x242070db; 0xc1bdceee;
    0xf57c0faf; 0x4787c62a; 0xa8304613; 0xfd469501;
    0x698098d8; 0x8b44f7af; 0xffff5bb1; 0x895cd7be;
    0x6b901122; 0xfd987193; 0xa679438e; 0x49b40821;
    0xf61e2562; 0xc040b340; 0x265e5a51; 0xe9b6c7aa;
    0xd62f105d; 0x02441453; 0xd8a1e681; 0xe7d3fbc8;
    0x21e1cde6; 0xc33707d6; 0xf4d50d87; 0x455a14ed;
    0xa9e3e905; 0xfcefa3f8; 0x676f02d9; 0x8d2a4c8a;
    0xfffa3942; 0x8771f681; 0x6d9d6122; 0xfde5380c;
    0xa4beea44; 0x4bdecfa9; 0xf6bb4b60; 0xbebfbc70;
    0x289b7ec6; 0xeaa127fa; 0xd4ef3085; 0x04881d05;
    0xd9d4d039; 0xe6db99e5; 0x1fa27cf8; 0xc4ac5665;
    0xf4292244; 0x432aff97; 0xab9423a7; 0xfc93a039;
    0x655b59c3; 0x8f0ccc92; 0xffeff47d; 0x85845dd1;
    0x6fa87e4f; 0xfe2ce6e0; 0xa3014314; 0x4e0811a1;
    0xf7537e82; 0xbd3af235; 0x2ad7d2bb; 0xeb86d391 ].

Definition md5_S : list Z :=
  [ 7; 12; 17; 22; 7; 12; 17; 22; 7; 12; 17; 22; 7; 12; 17; 22;
    5; 9; 14; 20; 5; 9; 14; 20; 5; 9; 14; 20; 5; 9; 14; 20;
    4; 11; 16; 23; 4; 11; 16; 23; 4; 11; 16; 23; 4; 11; 16; 23;
    6; 10; 15; 21; 6; 10; 15; 21; 6; 10; 15; 21; 6; 10; 15; 21 ].

Definition md5_round (ms : list Z) (st : Z * Z * Z * Z) (i : nat)
    : Z * Z * Z * Z :=
  let '(a, b, c, d) := st in
  let '(f, g) :=
    if (i <? 16)%nat then (Z.lor (Z.land b c) (Z.land (not32 b) d), i)
    else if (i <? 32)%nat then
      (Z.lor (Z.land d b) (Z.land (not32 d) c), ((5 * i + 1) mod 16)%nat)
    else if (i <? 48)%nat then
      (Z.lxor (Z.lxor b c) d, ((3 * i + 5) mod 16)%nat)
    else (Z.lxor c (Z.lor b (not32 d)), ((7 * i) mod 16)%nat) in
  let f' := w32 (f + a + nth i md5_K 0 + nth g ms 0) in
  (d, w32 (b + rotl f' (nth i md5_S 0)), b, c).

Definition md5_block (h : Z * Z * Z * Z) (blk : list byte) : Z * Z * Z * Z :=
  let '(a0, b0, c0, d0) := h in
  let ms := map word_le (split_into 4 blk) in
  let '(a, b, c, d) := fold_left (md5_round ms) (seq 0 64) h in
  (w32 (a0 + a), w32 (b0 + b), w32 (c0 + c), w32 (d0 + d)).

Definition md5_Sum (m : list byte) : list byte :=
  let '(a, b, c, d) :=
    fold_left md5_block (split_into 64 (pad le64 m))
      (0x67452301, 0xefcdab89, 0x98badcfe, 0x10325476) in
  le32 a ++ le32 b ++ le32 c ++ le32 d.

End Digest.

(** The implementations of [hash.Hash] the upload uses. *)
Inductive Algorithm : Type := SHA1 | MD5 | ADLER32.

(** [hash.Hash]: the algorithm and the bytes written so far; [Sum h] is
    [h.Sum(nil)]. *)
Record hash_Hash : Type := mkHash {
  algorithm : Algorithm;
  written : list byte
}.

Definition Write (h : hash_Hash) (bs : list byte) : hash_Hash :=
  mkHash (algorithm h) (written h ++ bs).

Definition Sum (h : hash_Hash) : list byte :=
  match algorithm h with
  | SHA1 => Digest.sha1_Sum (written h)
  | MD5 => Digest.md5_Sum (written h)
  | ADLER32 => Digest.adler32_Sum (written h)
  end.

Definition sha1_New : hash_Hash := mkHash SHA1 [].
Definition md5_New : hash_Hash := mkHash MD5 [].
Definition adler32_New : hash_Hash := mkHash ADLER32 [].

(** ** Collaborators outside the package *)

(** The claims of the signed transfer token ([transferClaims] in
    [Upload.URL]). *)
Record transferClaims : Type := mkClaims {
  ExpiresAt : Z;
  Audience : string;
  IssuedAt : Z;
  Target : string
}.

(** What the package takes from other packages as constants and pure
    functions: the attribute names of package [prefixes], [filepath.Join],
    the HS256 signer behind [jwt.Token.SignedString], and the resolution of
    a space and node id to a node by the lookup. *)
Class Env : Type := mkEnv {
  ChecksumPrefix : string;
  TypeAttr : string;
  BlobIDAttr : string;
  BlobsizeAttr : string;
  MTimeAttr : string;
  filepath_Join : string -> string -> string;
  jwt_SignedString : transferClaims -> string -> string + error;
  lu_NodeFromID : string -> string -> node_Node
}.

Definition when_err (err : option error) (f : error -> IO unit) : IO unit :=
  match err with
  | Some e => f e
  | None => ret tt
  end.

(** Is [q] the path [p] or a path below it? *)
Definition under (p q : string) : bool :=
  String.eqb q p || String.prefix (p +:+ "/") q.

Definition remove_tree (p : string) (fs : gmap string File) : gmap string File :=
  filter (fun kv => under p kv.1 = false) fs.

(** [os.Remove(path)]: a missing file is an error that wraps
    [fs.ErrNotExist]. *)
Definition os_Remove (path : string) : IO (option error) :=
  let* r := call (CRemove path) in
  fun w =>
    match r with
    | Some (_, e) => (Some e, w)
    | None =>
        if exists_file w path then (None, set_files w (delete path (files w)))
        else (Some (PathError "remove" path ErrNotExist), w)
    end.

(** [os.RemoveAll(path)]: removes the path and everything below it; a
    missing path is not an error. *)
Definition os_RemoveAll (path : string) : IO (option error) :=
  let* r := call (CRemoveAll path) in
  fun w =>
    match r with
    | Some (_, e) => (Some e, w)
    | None => (None, set_files w (remove_tree path (files w)))
    end.

(** Modelled from the spec: [utils.RemoveItem] is not among the sources;
    the spec has the node cleanup "remove the just-created node's storage
    entry".  The entry and what is below it are removed. *)
Definition utils_RemoveItem (path : string) : IO (option error) :=
  let* r := call (CRemoveItem path) in
  fun w =>
    match r with
    | Some (_, e) => (Some e, w)
    | None => (None, set_files w (remove_tree path (files w)))
    end.

(** The attributes [filter] lets through, with the values it gives them. *)
Definition select_attrs (filter : string -> list byte -> list byte * bool)
    (m : gmap string (list byte)) : gmap string (list byte) :=
  map_imap (fun k v => let (v', copy) := filter k v in
                       if copy then Some v' else None) m.

(** Modelled from the spec: [lookup.Lookup.CopyMetadata] is not among the
    sources; the spec has it "copy a fixed allow-list of attributes ... from
    the version snapshot back onto the live node".  The attributes of the
    source that the filter selects are set on the target, whose other
    attributes stay. *)
Definition lu_CopyMetadata (src dst : string)
    (filter : string -> list byte -> list byte * bool) : IO (option error) :=
  let* r := call (CCopyMetadata src dst) in
  fun w =>
    match r with
    | Some (_, e) => (Some e, w)
    | None =>
        match files w !! src, files w !! dst with
        | Some s, Some d =>
            (None,
             set_files w
               (<[dst := mkFile (content d) (select_attrs filter (xattrs s) ∪ xattrs d)]>
                  (files w)))
        | None, _ => (Some (PathError "listxattr" src ErrNotExist), w)
        | _, None => (Some (PathError "setxattr" dst ErrNotExist), w)
        end
    end.

(** Modelled from the spec: [tus.Session.Purge] is not among the sources;
    the spec has it "purge the durable session record; already absent is not
    an error" for the cleanup, which filters [fs.ErrNotExist] out. *)
Definition Session_Purge (s : tus_Session) : IO (option error) :=
  let* r := call (CPurge (ID s)) in
  fun w =>
    match r with
    | Some (_, e) => (Some e, w)
    | None =>
        if bool_decide (ID s ∈ sessions w)
        then (None, set_sessions w (sessions w ∖ {[ID s]}))
        else (Some (PathError "remove" (ID s) ErrNotExist), w)
    end.

(** A call whose only modelled outcome is whether it fails. *)
Definition external (c : Call) : IO (option error) :=
  let* r := call c in
  ret (match r with Some (_, e) => Some e | None => None end).

(** [node.Node.UnmarkProcessing], the two methods of the interface [Tree]
    the upload calls, [Tree.WriteBlob] and [Tree.Propagate], and
    [events.Publish]: what they do lies outside the model, the oracle decides
    whether they fail. *)
Definition node_UnmarkProcessing (n : node_Node) (uploadID : string) : IO (option error) :=
  external (CUnmarkProcessing (NID n) uploadID).
Definition tp_WriteBlob (n : node_Node) (binPath : string) : IO (option error) :=
  external (CWriteBlob (NID n) binPath).
Definition tp_Propagate (n : node_Node) (sizeDiff : Z) : IO (option error) :=
  external (CPropagate (NID n) sizeDiff).
Definition events_Publish (uploadID url : string) : IO (option error) :=
  external (CPublish uploadID url).

(** [node.ReadNode]: the node the lookup resolves the ids to, unless the
    oracle makes the call fail. *)
Definition node_ReadNode `{Env} (spaceRoot nodeID : string) : IO (node_Node + error) :=
  let* r := call (CReadNode spaceRoot nodeID) in
  ret (match r with
       | Some (_, e) => inr e
       | None => inl (lu_NodeFromID spaceRoot nodeID)
       end).

(** Modelled from the spec: [CreateNodeForUpload] is not among the sources;
    the spec has it "materialize/commit a Node carrying these attributes at
    the Session's target location".  The node entry is created when it is
    missing and the attributes are set on it. *)
Definition CreateNodeForUpload `{Env} (u : Upload) (attrs : gmap string (list byte))
    : IO (node_Node + error) :=
  let s := Session u in
  let* r := call (CCreateNodeForUpload (ID s) attrs) in
  fun w =>
    match r with
    | Some (_, e) => (inr e, w)
    | None =>
        let n := lu_NodeFromID (SpaceRoot s) (NodeID s) in
        let old := default (mkFile [] ∅) (files w !! InternalPath n) in
        (inl n,
         set_files w
           (<[InternalPath n := mkFile (content old) (attrs ∪ xattrs old)]> (files w)))
    end.

(** ** Package [upload] *)

(** [joinurl]: the parts, with a slash after each part that does not end in
    one and is not the last. *)
Fixpoint joinurl (paths : list string) : string :=
  match paths with
  | [] => ""
  | p :: rest =>
      let sep :=
        if negb (strings_HasSuffix p "/") && negb (bool_decide (rest = []))
        then "/" else "" in
      p +:+ sep +:+ joinurl rest
  end.

(** The claims [Upload.URL] signs.  The clock counts nanoseconds;
    [time.Duration(x) * time.Second] is an [int64] product. *)
Definition transfer_claims (u : Upload) (w : World) : transferClaims :=
  let target := joinurl [DownloadEndpoint (tknopts u); "tus/"; ID (Session u)] in
  let ttl := int64_wrap (TransferExpires (tknopts u) * 1000000000) in
  mkClaims ((clock w + ttl) / 1000000000) "reva" (clock w / 1000000000) target.

(** [Upload.URL]. *)
Definition URL `{Env} (u : Upload) : IO (string * option error) :=
  fun w =>
    match jwt_SignedString (transfer_claims u w) (TransferSharedSecret (tknopts u)) with
    | inr err => (("", Some (Wrapped err "error signing token with claims")), w)
    | inl tkn => ((joinurl [DataGatewayEndpoint (tknopts u); tkn], None), w)
    end.

(** [Upload.checkHash]. *)
Definition checkHash (expected : string) (h : hash_Hash) : option error :=
  let hash := hex_EncodeToString (Sum h) in
  if negb (String.eqb expected hash)
  then Some (ChecksumMismatch
               ("invalid checksum: expected " +:+ expected +:+ " got " +:+ fmt_x hash))
  else None.

(** The filter [Upload.cleanup] hands to [CopyMetadata]. *)
Definition rollback_filter `{Env} (attributeName : string) (value : list byte)
    : list byte * bool :=
  (value,
   strings_HasPrefix attributeName ChecksumPrefix
   || String.eqb attributeName TypeAttr
   || String.eqb attributeName BlobIDAttr
   || String.eqb attributeName BlobsizeAttr
   || String.eqb attributeName MTimeAttr).

(** The node step of [Upload.cleanup], entered when [cleanNode] holds and a
    node is set. *)
Definition cleanup_node `{Env} (u : Upload) (n : node_Node) : IO Upload :=
  let p := VersionsPath (Session u) in
  if String.eqb p "" then
    let* err := utils_RemoveItem (InternalPath n) in
    let* _ := when_err err (log_Info "removing node failed") in
    let src := filepath_Join (ParentPath n) (Name n) in
    let* err := os_Remove src in
    let* _ := when_err err (log_Info "removing node from parent failed") in
    ret (set_Node u None)
  else
    let* err := lu_CopyMetadata p (InternalPath n) rollback_filter in
    let* _ := when_err err (log_Info "renaming version node failed") in
    let* err := os_RemoveAll p in
    let* _ := when_err err (log_Info "error removing version") in
    ret u.

Definition not_ErrNotExist (err : option error) : option error :=
  match err with
  | Some e => if errors_Is e ErrNotExist then None else Some e
  | None => None
  end.

(** The staging-file step of [Upload.cleanup]. *)
Definition cleanup_bin (u : Upload) : IO unit :=
  let* err := os_Remove (BinPath (Session u)) in
  when_err (not_ErrNotExist err) (log_Error "removing upload failed").

(** The session-record step of [Upload.cleanup]. *)
Definition cleanup_info (u : Upload) : IO unit :=
  let* err := Session_Purge (Session u) in
  when_err (not_ErrNotExist err) (log_Error "removing upload info failed").

(** The first block of [Upload.cleanup], with its guard. *)
Definition node_step `{Env} (u : Upload) (cleanNode : bool) : IO Upload :=
  match cleanNode, Node u with
  | true, Some n => cleanup_node u n
  | _, _ => ret u
  end.

(** [Upload.cleanup]. *)
Definition cleanup `{Env} (u : Upload) (cleanNode cleanBin cleanInfo : bool)
    : IO Upload :=
  let* u := node_step u cleanNode in
  let* _ := if cleanBin then cleanup_bin u else ret tt in
  let* _ := if cleanInfo then cleanup_info u else ret tt in
  ret u.

(** [Cleanup]. *)
Definition Cleanup `{Env} (u : Upload) (failure keepUpload : bool) : IO Upload :=
  let* u := cleanup u failure (negb keepUpload) (negb keepUpload) in
  match Node u with
  | Some n =>
      let* err := node_UnmarkProcessing n (ID (Session u)) in
      let* _ := when_err err (log_Info "unmarking processing failed") in
      ret u
  | None => ret u
  end.

(** [Upload.Terminate]. *)
Definition Terminate `{Env} (u : Upload) : IO (option error * Upload) :=
  let* u := cleanup u true true true in
  ret (None, u).

(** [Upload.Finalize]. *)
Definition Finalize `{Env} (u : Upload) : IO (option error * Upload) :=
  let* r :=
    match Node u with
    | Some n => ret (inl n)
    | None => node_ReadNode (SpaceRoot (Session u)) (NodeID (Session u))
    end in
  match r with
  | inr err => ret (Some err, u)
  | inl n =>
      let u := set_Node u (Some n) in
      let* err := tp_WriteBlob n (BinPath (Session u)) in
      match err with
      | Some e => ret (Some (Wrapped e "failed to upload file to blobstore"), u)
      | None => ret (None, u)
      end
  end.

(** The first block of [Upload.FinishUpload]: the staging file is read once
    through the two [io.TeeReader]s into the three hashes.  An error of
    [os.Open] leaves a nil file, which is read all the same. *)
Definition digests (u : Upload) : IO (hash_Hash * hash_Hash * hash_Hash) :=
  let* r := os_Open (BinPath (Session u)) in
  let* f :=
    match r with
    | inr err => let* _ := log_Info "error opening binPath" err in ret None
    | inl f => ret (Some f)
    end in
  let* (data, err) := drain (FileReader f) in
  let sha1h := Write sha1_New data in
  let md5h := Write md5_New data in
  let adler32h := Write adler32_New data in
  let* _ := when_err err (log_Info "error copying checksums") in
  ret (sha1h, md5h, adler32h).

(** The [switch] of [Upload.FinishUpload]. *)
Definition verify (s : tus_Session) (sha1h md5h adler32h : hash_Hash)
    : option error :=
  if negb (String.eqb (ChecksumSHA1 s) "") then checkHash (ChecksumSHA1 s) sha1h
  else if negb (String.eqb (ChecksumMD5 s) "") then checkHash (ChecksumMD5 s) md5h
  else if negb (String.eqb (ChecksumADLER32 s) "") then
    checkHash (ChecksumADLER32 s) adler32h
  else None.

Definition checksum_attrs `{Env} (sha1h md5h adler32h : hash_Hash)
    : gmap string (list byte) :=
  <[ChecksumPrefix +:+ "sha1" := Sum sha1h]>
    (<[ChecksumPrefix +:+ "md5" := Sum md5h]>
       (<[ChecksumPrefix +:+ "adler32" := Sum adler32h]> ∅)).

(** The publication of [events.BytesReceived] in [Upload.FinishUpload],
    entered when a publisher is set. *)
Definition publish_BytesReceived `{Env} (u : Upload) : IO (option error) :=
  let* (s, err) := URL u in
  match err with
  | Some e => ret (Some e)
  | None => events_Publish (ID (Session u)) s
  end.

(** The synchronous post-processing of [Upload.FinishUpload], entered when
    [async] is off. *)
Definition postprocess `{Env} (u : Upload) : IO (option error * Upload) :=
  let* (err, u) := Finalize u in
  let* u := Cleanup u (bool_decide (err <> None)) false in
  let* _ := when_err err (log_Error "failed to upload") in
  ret (err, u).

(** What [Upload.FinishUpload] does once the node is created. *)
Definition after_commit `{Env} (u : Upload) (n : node_Node)
    : IO (option error * Upload) :=
  let u := set_Node u (Some n) in
  let* err := if pub u then publish_BytesReceived u else ret None in
  match err with
  | Some e => ret (Some e, u)
  | None =>
      let* (err, u) := if negb (async u) then postprocess u else ret (None, u) in
      match err with
      | Some e => ret (Some e, u)
      | None =>
          let* err := tp_Propagate n (SizeDiff (Session u)) in
          ret (err, u)
      end
  end.

(** The start of [Upload.FinishUpload]: the lock id goes into the context. *)
Definition with_lock (u : Upload) : Upload :=
  if negb (String.eqb (LockID (Session u)) "")
  then set_Ctx u (ContextSetLockID (Ctx u) (LockID (Session u)))
  else u.

(** What [Upload.FinishUpload] does once the checksum is accepted. *)
Definition commit `{Env} (u : Upload) (sha1h md5h adler32h : hash_Hash)
    : IO (option error * Upload) :=
  let attrs := checksum_attrs sha1h md5h adler32h in
  let* r := CreateNodeForUpload u attrs in
  match r with
  | inr err =>
      let* u := Cleanup u true false in
      ret (Some err, u)
  | inl n => after_commit u n
  end.

(** [Upload.FinishUpload]. *)
Definition FinishUpload `{Env} (u : Upload) : IO (option error * Upload) :=
  let u := with_lock u in
  let* (sha1h, md5h, adler32h) := digests u in
  match verify (Session u) sha1h md5h adler32h with
  | Some err =>
      let* u := Cleanup u true false in
      ret (Some err, u)
  | None => commit u sha1h md5h adler32h
  end.

(** The loop of [Upload.ConcatUploads]. *)
Fixpoint concat_parts (file : string) (uploads : list Upload) : IO (option error) :=
  match uploads with
  | [] => ret None
  | fileUpload :: rest =>
      let* r := os_Open (BinPath (Session fileUpload)) in
      match r with
      | inr err => ret (Some err)
      | inl src =>
          let* (_, err) := io_Copy file (FileReader (Some src)) in
          match err with
          | Some e => ret (Some e)
          | None => concat_parts file rest
          end
      end
  end.

(** [Upload.ConcatUploads]. *)
Definition ConcatUploads (u : Upload) (uploads : list Upload) : IO (option error) :=
  let* r := os_OpenFile (BinPath (Session u)) in
  match r with
  | inr err => ret (Some err)
  | inl file => concat_parts file uploads
  end.

(** ** Notions the statements use *)

(** The session offset equals the number of bytes in the staging area. *)
Definition offset_invariant (u : Upload) (w : World) : Prop :=
  Offset (Session u) = Z.of_nat (length (file_content w (BinPath (Session u)))).

(** The staged contents of the parts, in the order of the list. *)
Definition part_contents (w : World) (uploads : list Upload) : list byte :=
  concat (map (fun p => file_content w (BinPath (Session p))) uploads).

(** Letter case folded away, for comparing hexadecimal strings without
    regard to case (what [strings.EqualFold] compares on ASCII). *)
Definition ascii_lower (c : ascii) : ascii :=
  let n := N_of_ascii c in
  if ((65 <=? n) && (n <=? 90))%N then ascii_of_N (n + 32) else c.

Fixpoint strings_ToLower (s : string) : string :=
  match s with
  | EmptyString => EmptyString
  | String c s' => String (ascii_lower c) (strings_ToLower s')
  end.

Definition strings_EqualFold (a b : string) : bool :=
  String.eqb (strings_ToLower a) (strings_ToLower b).

(** The calls [Upload.cleanup] makes, by its arguments. *)
Definition cleanup_node_calls `{Env} (u : Upload) (n : node_Node) : list Call :=
  if String.eqb (VersionsPath (Session u)) "" then
    [CRemoveItem (InternalPath n);
     CRemove (filepath_Join (ParentPath n) (Name n))]
  else
    [CCopyMetadata (VersionsPath (Session u)) (InternalPath n);
     CRemoveAll (VersionsPath (Session u))].

Definition cleanup_calls `{Env} (u : Upload) (cleanNode cleanBin cleanInfo : bool)
    : list Call :=
  match cleanNode, Node u with
  | true, Some n => cleanup_node_calls u n
  | _, _ => []
  end
  ++ (if cleanBin then [CRemove (BinPath (Session u))] else [])
  ++ (if cleanInfo then [CPurge (ID (Session u))] else []).

(** Is the attribute on the allow-list of the version rollback? *)
Definition allow_listed `{Env} (a : string) : bool := (rollback_filter a []).2.

(** The error [e] is the cause of an entry of the log. *)
Definition logged (e : error) (w : World) : Prop :=
  exists l m, mkLog l m (Some e) ∈ logs w.

(** The entries of the log at level [Error]. *)
Definition is_Error (l : LogEntry) : bool :=
  match level l with
  | Error => true
  | Info => false
  end.

Definition error_entries (w : World) : list LogEntry :=
  List.filter is_Error (logs w).

(** A primitive that makes the one call [c], fails when the oracle says so
    and touches neither the oracle nor the log. *)
Definition primitive (c : Call) (prim : IO (option error)) : Prop :=
  forall w,
    trace (prim w).2 = trace w ++ [c]
    /\ faults (prim w).2 = faults w
    /\ logs (prim w).2 = logs w
    /\ (forall k e, faults w (length (trace w)) c = Some (k, e) ->
                    (prim w).1 = Some e).

(** A computation that makes exactly the calls [cs], whatever their fate,
    keeps the oracle, only adds to the log, logs the failure of each call
    that is not [fs.ErrNotExist], and returns a value satisfying [Q]. *)
Definition best_effort {A : Type} (cs : list Call) (m : IO A) (Q : A -> Prop)
    : Prop :=
  forall w,
    Q (m w).1
    /\ trace (m w).2 = trace w ++ cs
    /\ faults (m w).2 = faults w
    /\ (exists l, logs (m w).2 = logs w ++ l)
    /\ (forall i c k e,
           cs !! i = Some c ->
           faults w (length (trace w) + i)%nat c = Some (k, e) ->
           errors_Is e ErrNotExist = false ->
           logged e (m w).2).

(** ** Concrete instances *)

Definition reva_env : Env :=
  mkEnv "user.ocis.cs." "user.ocis.type" "user.ocis.blobid" "user.ocis.blobsize"
    "user.ocis.mtime"
    (fun a b => a +:+ "/" +:+ b)
    (fun c key => inl ("jwt." +:+ Target c))
    (fun space id => mkNode space id "file.txt"
                       ("/spaces/" +:+ space +:+ "/nodes/" +:+ id)
                       ("/spaces/" +:+ space +:+ "/nodes/root")).

(** The same environment with a signer that fails. *)
Definition reva_env_nosign : Env :=
  mkEnv "user.ocis.cs." "user.ocis.type" "user.ocis.blobid" "user.ocis.blobsize"
    "user.ocis.mtime"
    (fun a b => a +:+ "/" +:+ b)
    (fun c key => inr (ErrOther "key is invalid"))
    (fun space id => mkNode space id "file.txt"
                       ("/spaces/" +:+ space +:+ "/nodes/" +:+ id)
                       ("/spaces/" +:+ space +:+ "/nodes/root")).

Definition no_faults : nat -> Call -> option (nat * error) := fun _ _ => None.

Definition bytes (s : string) : list byte := list_byte_of_string s.

Definition session0 : tus_Session :=
  mkSession "u1" "/uploads/u1.bin" 0 9 false "" "" "" "space1" "node1" "" "" "file.txt" 9.

Definition with_checksums (s : tus_Session) (sha1 md5 adler32 : string) : tus_Session :=
  mkSession (ID s) (BinPath s) (Offset s) (Size s) (SizeIsDeferred s) sha1 md5 adler32
    (SpaceRoot s) (NodeID s) (VersionsPath s) (LockID s) (Filename s) (SizeDiff s).

Definition with_versions (s : tus_Session) (p : string) : tus_Session :=
  mkSession (ID s) (BinPath s) (Offset s) (Size s) (SizeIsDeferred s) (ChecksumSHA1 s)
    (ChecksumMD5 s) (ChecksumADLER32 s) (SpaceRoot s) (NodeID s) p (LockID s)
    (Filename s) (SizeDiff s).

Definition tknopts0 : options_TokenOptions :=
  mkTokenOptions "https://host/data" "https://host/gateway" 3600 "secret".

Definition upload0 : Upload :=
  mkUpload (mkContext None (Some "alice")) session0 None false false tknopts0.

(** An empty staging file and the session record of [upload0]. *)
Definition world_empty : World :=
  mkWorld {["/uploads/u1.bin" := mkFile [] ∅]} {["u1"]} no_faults [] [] 0.

(** The staging file holds the nine bytes of "Wikipedia". *)
Definition world_wiki : World :=
  mkWorld {["/uploads/u1.bin" := mkFile (bytes "Wikipedia") ∅]} {["u1"]} no_faults [] [] 0.

(** The SHA1 expectation is the digest of "Wikipedia"; the MD5 expectation
    is not. *)
Definition upload_sha1_right_md5_wrong : Upload :=
  set_Session upload0
    (with_checksums session0 "664add438097fbd4307f814de8e62a10f8905588"
       "ffffffffffffffffffffffffffffffff" "").

(** The ADLER32 expectation is the digest of "Wikipedia" in upper case. *)
Definition upload_adler32_upper : Upload :=
  set_Session upload0 (with_checksums session0 "" "" "11E60398").

Definition with_BinPath (u : Upload) (id p : string) : Upload :=
  let s := Session u in
  set_Session u
    (mkSession id p (Offset s) (Size s) (SizeIsDeferred s) (ChecksumSHA1 s)
       (ChecksumMD5 s) (ChecksumADLER32 s) (SpaceRoot s) (NodeID s)
       (VersionsPath s) (LockID s) (Filename s) (SizeDiff s)).

Definition upload_a : Upload := with_BinPath upload0 "a" "/uploads/a.bin".
Definition upload_b : Upload := with_BinPath upload0 "b" "/uploads/b.bin".

(** An empty final upload and two partial uploads holding "ab" and "cd". *)
Definition world_parts : World :=
  mkWorld
    (<["/uploads/u1.bin" := mkFile [] ∅]>
       (<["/uploads/a.bin" := mkFile (bytes "ab") ∅]>
          {["/uploads/b.bin" := mkFile (bytes "cd") ∅]}))
    {["u1"; "a"; "b"]} no_faults [] [] 0.

(** Every [os.Remove] is refused. *)
Definition faults_remove_denied : nat -> Call -> option (nat * error) :=
  fun _ c =>
    match c with
    | CRemove _ => Some (0%nat, ErrOther "permission denied")
    | _ => None
    end.

Definition world_remove_denied : World :=
  mkWorld {["/uploads/u1.bin" := mkFile (bytes "Wikipedia") ∅]} {["u1"]}
    faults_remove_denied [] [] 0.

(** Neither a staging file nor a session record is left. *)
Definition world_cleaned : World := mkWorld ∅ ∅ no_faults [] [] 0.

(** The ADLER32 expectation is not the digest of "Wikipedia". *)
Definition upload_adler32_wrong : Upload :=
  set_Session upload0 (with_checksums session0 "" "" "00000000").

Definition node1 : node_Node :=
  mkNode "space1" "node1" "file.txt" "/spaces/space1/nodes/node1"
    "/spaces/space1/nodes/root".

(** An upload that replaced an existing version of [node1]. *)
Definition upload_versioned : Upload :=
  set_Node
    (set_Session upload0
       (with_versions session0 "/spaces/space1/nodes/node1.REV.2022-01-01"))
    (Some node1).

(** The live node carries the attributes of the failed upload and a name
    attribute; the version snapshot carries those of the version before. *)
Definition world_versioned : World :=
  mkWorld
    (<["/uploads/u1.bin" := mkFile (bytes "Wikipedia") ∅]>
       (<["/spaces/space1/nodes/node1" :=
            mkFile []
              (<["user.ocis.cs.sha1" := bytes "new-sha1"]>
                 (<["user.ocis.blobid" := bytes "new-blob"]>
                    {["user.ocis.name" := bytes "file.txt"]}))]>
          {["/spaces/space1/nodes/node1.REV.2022-01-01" :=
              mkFile []
                (<["user.ocis.cs.sha1" := bytes "old-sha1"]>
                   (<["user.ocis.blobid" := bytes "old-blob"]>
                      {["user.ocis.name" := bytes "old.txt"]}))]}))
    {["u1"]} no_faults [] [] 0.

(** [upload0] with a publisher. *)
Definition upload_pub : Upload :=
  mkUpload (mkContext None (Some "alice")) session0 None true false tknopts0.

(** The event bus refuses every publication. *)
Definition faults_publish_down : nat -> Call -> option (nat * error) :=
  fun _ c =>
    match c with
    | CPublish _ _ => Some (0%nat, ErrOther "nats: no servers available")
    | _ => None
    end.

Definition world_publish_down : World :=
  mkWorld {["/uploads/u1.bin" := mkFile (bytes "Wikipedia") ∅]} {["u1"]}
    faults_publish_down [] [] 0.

(** The staging file of [upload0] is missing. *)
Definition world_no_staging : World := mkWorld ∅ {["u1"]} no_faults [] [] 0.

(** ** The rest of the package *)

(** [buildUpload]: the upload starts without a node. *)
Definition buildUpload (ctx : Context) (session : tus_Session) (pub async : bool)
    (tknopts : options_TokenOptions) : Upload :=
  mkUpload ctx session None pub async tknopts.

(** [Upload.GetReader]: the result of [os.Open] as it is, a nil file with
    the error when the staging file cannot be opened. *)
Definition GetReader (u : Upload) : IO (Reader * option error) :=
  let* r := os_Open (BinPath (Session u)) in
  ret (match r with
       | inl f => (FileReader (Some f), None)
       | inr err => (FileReader None, Some err)
       end).

(** Chunks sent one after the other, each with the offset the client
    declares, until one is refused. *)
Fixpoint write_chunks (u : Upload) (chunks : list (Z * Reader))
    : IO (option error * Upload) :=
  match chunks with
  | [] => ret (None, u)
  | (offset, src) :: rest =>
      let* (r, u') := WriteChunk u offset src in
      match r.2 with
      | Some e => ret (Some e, u')
      | None => write_chunks u' rest
      end
  end.

(** The bytes a request body delivers when it ends with [io.EOF] or is cut
    off with [io.ErrUnexpectedEOF]. *)
Definition body (data : list byte) (paused : bool) : Reader :=
  Stream data (if paused then Some ErrUnexpectedEOF else None).

(** No call on the path [p] that the chunk ingestion makes is made to
    fail. *)
Definition staging_sound (w : World) (p : string) : Prop :=
  forall t, faults w t (COpenFile p) = None /\ faults w t (CWrite p) = None.

(** The oracle makes no call fail. *)
Definition fault_free (w : World) : Prop := forall t c, faults w t c = None.

(** The request bodies of a list of chunks, each given as the declared
    offset, the bytes delivered and whether the body was cut off. *)
Definition bodies (chunks : list (Z * list byte * bool)) : list (Z * Reader) :=
  map (fun c => (c.1.1, body c.1.2 c.2)) chunks.

Definition delivered (chunks : list (Z * list byte * bool)) : list byte :=
  concat (map (fun c => c.1.2) chunks).

(** No opening for reading and no read of the path [p] is made to fail. *)
Definition reading_sound (w : World) (p : string) : Prop :=
  forall t, faults w t (COpen p) = None /\ faults w t (CRead p) = None.

(** The read of the staging file fails after four bytes. *)
Definition faults_short_read : nat -> Call -> option (nat * error) :=
  fun _ c =>
    match c with
    | CRead _ => Some (4%nat, ErrOther "input/output error")
    | _ => None
    end.

Definition world_short_read : World :=
  mkWorld {["/uploads/u1.bin" := mkFile (bytes "Wikipedia") ∅]} {["u1"]}
    faults_short_read [] [] 0.

(** [sha1.Size], [md5.Size] and [adler32.Size]. *)
Definition digest_size (a : Algorithm) : nat :=
  match a with
  | SHA1 => 20
  | MD5 => 16
  | ADLER32 => 4
  end.

(** The expected checksum [FinishUpload] selects, with its algorithm. *)
Definition selected_checksum (s : tus_Session) : option (Algorithm * string) :=
  if negb (String.eqb (ChecksumSHA1 s) "") then Some (SHA1, ChecksumSHA1 s)
  else if negb (String.eqb (ChecksumMD5 s) "") then Some (MD5, ChecksumMD5 s)
  else if negb (String.eqb (ChecksumADLER32 s) "") then Some (ADLER32, ChecksumADLER32 s)
  else None.

(** The ADLER32 expectation lacks its last digit. *)
Definition upload_adler32_short : Upload :=
  set_Session upload0 (with_checksums session0 "" "" "11e6039").

(** [FinishUpload] gets as far as creating the node [n], which leaves the
    world [w2]. *)
Definition commits `{Env} (u : Upload) (w : World) (n : node_Node) (w2 : World)
    : Prop :=
  exists sha1h md5h adler32h w1,
    digests (with_lock u) w = ((sha1h, md5h, adler32h), w1)
    /\ verify (Session u) sha1h md5h adler32h = None
    /\ CreateNodeForUpload (with_lock u) (checksum_attrs sha1h md5h adler32h) w1
       = (inl n, w2).

(** The outcome of the call [c] when it is the next one. *)
Definition next_fails (w : World) (c : Call) : option error :=
  match faults w (length (trace w)) c with
  | Some (_, e) => Some e
  | None => None
  end.

(** The outcome of the call [c] when it is the one made after [t] calls. *)
Definition fails_at (w : World) (t : nat) (c : Call) : option error :=
  match faults w t c with
  | Some (_, e) => Some e
  | None => None
  end.

(** [upload0] in asynchronous mode. *)
Definition upload_async : Upload :=
  mkUpload (mkContext None (Some "alice")) session0 None false true tknopts0.

(** The tree refuses to create nodes. *)
Definition faults_create_denied : nat -> Call -> option (nat * error) :=
  fun _ c =>
    match c with
    | CCreateNodeForUpload _ _ => Some (0%nat, ErrOther "quota exceeded")
    | _ => None
    end.

Definition world_create_denied : World :=
  mkWorld {["/uploads/u1.bin" := mkFile (bytes "Wikipedia") ∅]} {["u1"]}
    faults_create_denied [] [] 0.

(** The blobstore refuses the blob. *)
Definition faults_blobstore_down : nat -> Call -> option (nat * error) :=
  fun _ c =>
    match c with
    | CWriteBlob _ _ => Some (0%nat, ErrOther "blobstore unavailable")
    | _ => None
    end.

Definition world_blobstore_down : World :=
  mkWorld {["/uploads/u1.bin" := mkFile (bytes "Wikipedia") ∅]} {["u1"]}
    faults_blobstore_down [] [] 0.

(** The propagation fails. *)
Definition faults_propagate_fails : nat -> Call -> option (nat * error) :=
  fun _ c =>
    match c with
    | CPropagate _ _ => Some (0%nat, ErrOther "propagation failed")
    | _ => None
    end.

Definition world_propagate_fails : World :=
  mkWorld {["/uploads/u1.bin" := mkFile (bytes "Wikipedia") ∅]} {["u1"]}
    faults_propagate_fails [] [] 0.

(** The end of [Cleanup] when a node is set: the processing flag is
    unmarked, a failure is logged. *)
Definition unmark `{Env} (u : Upload) (n : node_Node) : IO Upload :=
  let* err := node_UnmarkProcessing n (ID (Session u)) in
  let* _ := when_err err (log_Info "unmarking processing failed") in
  ret u.

(** The error [Finalize] returns for an error of [WriteBlob]. *)
Definition blob_error (e : error) : error :=
  Wrapped e "failed to upload file to blobstore".

(** The lookup cannot read the node. *)
Definition faults_readnode_fails : nat -> Call -> option (nat * error) :=
  fun _ c =>
    match c with
    | CReadNode _ _ => Some (0%nat, ErrOther "node not found")
    | _ => None
    end.

Definition world_readnode_fails : World :=
  mkWorld {["/uploads/u1.bin" := mkFile (bytes "Wikipedia") ∅]} {["u1"]}
    faults_readnode_fails [] [] 0.

(** [upload0] with its node, which replaced no version. *)
Definition upload_with_node : Upload := set_Node upload0 (Some node1).

(** The node of [upload_with_node], its entry in the parent and its staging
    file. *)
Definition world_with_node : World :=
  mkWorld
    (<["/uploads/u1.bin" := mkFile (bytes "Wikipedia") ∅]>
       (<["/spaces/space1/nodes/node1" := mkFile [] ∅]>
          (<["/spaces/space1/nodes/node1/child" := mkFile [] ∅]>
             {["/spaces/space1/nodes/root/file.txt" := mkFile [] ∅]})))
    {["u1"]} no_faults [] [] 0.

(** The processing flag cannot be unmarked. *)
Definition faults_unmark_fails : nat -> Call -> option (nat * error) :=
  fun _ c =>
    match c with
    | CUnmarkProcessing _ _ => Some (0%nat, ErrOther "metadata locked")
    | _ => None
    end.

Definition world_unmark_fails : World :=
  mkWorld
    (<["/uploads/u1.bin" := mkFile (bytes "Wikipedia") ∅]>
       {["/spaces/space1/nodes/node1" := mkFile [] ∅]})
    {["u1"]} faults_unmark_fails [] [] 0.

(** [strings.TrimSuffix s "/"]: one trailing slash less. *)
Definition trim_slash (s : string) : string :=
  if strings_HasSuffix s "/"
  then String.substring 0 (String.length s - 1) s
  else s.

(** The parts with one trailing slash removed from each but the last. *)
Fixpoint trim_inner (paths : list string) : list string :=
  match paths with
  | [] => []
  | [p] => [p]
  | p :: rest => trim_slash p :: trim_inner rest
  end.

(** The part is not the destination [d] and its staging file exists. *)
Definition usable_part (w : World) (d : string) (p : Upload) : Prop :=
  BinPath (Session p) <> d /\ is_Some (files w !! BinPath (Session p)).

(** A partial upload whose staging file is missing. *)
Definition upload_c : Upload := with_BinPath upload0 "c" "/uploads/c.bin".

(** * Properties *)

(** ** Test vectors and a complete run *)

Example sha1_Sum_abc :
  hex_EncodeToString (Digest.sha1_Sum (bytes "abc"))
  = "a9993e364706816aba3e25717850c26c9cd0d89d".
Proof. vm_compute. reflexivity. Qed.

Example md5_Sum_abc :
  hex_EncodeToString (Digest.md5_Sum (bytes "abc"))
  = "900150983cd24fb0d6963f7d28e17f72".
Proof. vm_compute. reflexivity. Qed.

Example sha1_Sum_two_blocks :
  hex_EncodeToString (Digest.sha1_Sum (repeat "a"%byte 70))
  = "ed6c69d9e8b4373af86303dfaa3528dfbc129902".
Proof. vm_compute. reflexivity. Qed.

Example md5_Sum_two_blocks :
  hex_EncodeToString (Digest.md5_Sum (repeat "a"%byte 70))
  = "0f5c6c4e740bfcc08c3c26ccb2673d46".
Proof. vm_compute. reflexivity. Qed.

Example adler32_Sum_Wikipedia :
  hex_EncodeToString (Digest.adler32_Sum (bytes "Wikipedia")) = "11e60398".
Proof. vm_compute. reflexivity. Qed.

Example joinurl_download :
  joinurl ["https://host/data"; "tus/"; "u1"] = "https://host/data/tus/u1".
Proof. reflexivity. Qed.

(** One chunk of nine bytes, then a synchronous finish with the right SHA1
    expectation: no error, the offset is nine, the node carries the three
    digests, the staging file and the session record are gone, and the last
    call is the propagation of the size difference. *)
Example write_then_finish :
  let '(_, _, u1, w1) :=
    WriteChunk upload_sha1_right_md5_wrong 0 (Stream (bytes "Wikipedia") None)
      world_empty in
  let '(err, u2, w2) := @FinishUpload reva_env u1 w1 in
  let attr k :=
    match files w2 !! "/spaces/space1/nodes/node1" with
    | Some f => hex_EncodeToString <$> xattrs f !! k
    | None => None
    end in
  Offset (Session u1) = 9
  /\ err = None
  /\ attr "user.ocis.cs.sha1" = Some "664add438097fbd4307f814de8e62a10f8905588"
  /\ attr "user.ocis.cs.md5" = Some "9c677286866aad38f8e9b660f5411814"
  /\ attr "user.ocis.cs.adler32" = Some "11e60398"
  /\ files w2 !! "/uploads/u1.bin" = None
  /\ sessions w2 = ∅
  /\ last (trace w2) = Some (CPropagate "node1" 9).
Proof. vm_compute. repeat split. Qed.

(** ** Basic facts *)

Lemma error_eqb_refl (e : error) : error_eqb e e = true.
Proof.
  induction e; simpl; rewrite ?String.eqb_refl, ?IHe; reflexivity.
Qed.

Lemma error_eqb_eq (a b : error) : error_eqb a b = true <-> a = b.
Proof.
  split; [| intros ->; apply error_eqb_refl].
  revert b; induction a; intros [] Hab; simpl in Hab; try discriminate;
    repeat match goal with
           | H : _ && _ = true |- _ => apply andb_prop in H; destruct H
           | H : String.eqb _ _ = true |- _ => apply String.eqb_eq in H; subst
           | H : error_eqb _ _ = true |- _ => apply IHa in H; subst
           end; reflexivity.
Qed.

Lemma error_eqb_neq (a b : error) : error_eqb a b = false <-> a <> b.
Proof.
  rewrite <- error_eqb_eq. destruct (error_eqb a b); split; congruence.
Qed.

Lemma int64_wrap_id (z : Z) : in_int64 z -> int64_wrap z = z.
Proof.
  unfold in_int64, int64_wrap, min_int64, max_int64. intros Hz.
  rewrite Z.mod_small; lia.
Qed.

(** *** How the primitives change the world *)

Lemma os_OpenFile_inl (p f : string) (w w1 : World) :
  os_OpenFile p w = (inl f, w1) ->
  f = p /\ is_Some (files w !! p) /\ w1 = set_trace w (trace w ++ [COpenFile p]).
Proof.
  unfold os_OpenFile, bind, call.
  destruct (faults w _ _) as [[k e] |]; [discriminate |].
  unfold exists_file. simpl. case_bool_decide; [| discriminate].
  intros [= <- <-]. auto.
Qed.

Lemma os_OpenFile_inr (p : string) (e : error) (w w1 : World) :
  os_OpenFile p w = (inr e, w1) -> w1 = set_trace w (trace w ++ [COpenFile p]).
Proof.
  unfold os_OpenFile, bind, call.
  destruct (faults w _ _) as [[k e'] |]; [intros [= _ <-]; reflexivity |].
  destruct (exists_file _ _); [discriminate | intros [= _ <-]; reflexivity].
Qed.

Lemma drain_files (r : Reader) (w w1 : World) (data : list byte) (fin : option error) :
  drain r w = ((data, fin), w1) ->
  files w1 = files w /\ sessions w1 = sessions w /\ faults w1 = faults w
  /\ logs w1 = logs w.
Proof.
  destruct r as [d f | [p |]]; simpl; unfold ret, bind, call.
  - intros [= _ _ <-]. auto.
  - destruct (faults w _ _) as [[k e] |]; intros [= _ _ <-]; auto.
  - intros [= _ _ <-]. auto.
Qed.

Lemma append_bytes_nil (p : string) (fs : gmap string File) :
  append_bytes p [] fs = fs.
Proof.
  apply map_eq. intros q. unfold append_bytes.
  destruct (decide (p = q)) as [-> | Hne]; [| now rewrite lookup_alter_ne].
  rewrite lookup_alter_eq.
  destruct (fs !! q) as [[c x] |]; simpl; [| reflexivity].
  now rewrite app_nil_r.
Qed.


Lemma io_Copy_appends (dst : string) (src : Reader) (w w' : World)
    (n : Z) (err : option error) :
  io_Copy dst src w = ((n, err), w') ->
  exists bs, files w' = append_bytes dst bs (files w) /\ Z.of_nat (length bs) = n.
Proof.
  unfold io_Copy, bind.
  destruct (drain src w) as [[data fin] w1] eqn:Hd.
  apply drain_files in Hd as (Hf & _).
  unfold call. destruct (faults w1 _ _) as [[k e] |].
  - destruct (k <? length data)%nat eqn:Hk.
    + intros [= <- _ <-]. exists (take k data). simpl. rewrite Hf.
      split; [reflexivity |]. apply Nat.ltb_lt in Hk.
      rewrite length_take. f_equal. lia.
    + intros [= <- _ <-]. exists data. simpl. now rewrite Hf.
  - intros [= <- _ <-]. exists data. simpl. now rewrite Hf.
Qed.

Lemma file_content_append (w w' : World) (p : string) (bs : list byte) :
  is_Some (files w !! p) ->
  files w' = append_bytes p bs (files w) ->
  file_content w' p = file_content w p ++ bs.
Proof.
  intros [f Hf] Hw. unfold file_content, append_bytes in *.
  now rewrite Hw, lookup_alter_eq, Hf.
Qed.

(** ** Properties of chunk ingestion *)

(** C1.  When the copy of the input stream into the staging file stops with
    an error after [n] bytes, these [n] bytes are appended to the staging
    file.  When the error is [io.ErrUnexpectedEOF], [WriteChunk] returns [(n, nil)],
    does nothing after the copy (the world is the one the copy left) and
    advances the session offset by [n] (in [int64] arithmetic; exactly [n]
    when the sum fits), changing nothing else of the upload.  When the copy
    stops with any other error, [WriteChunk] returns [n] and that error and
    leaves the upload as it was. *)
Theorem WriteChunk_copy_error (u : Upload) (offset : Z) (src : Reader)
    (w w1 w' : World) (file : string) (n : Z) (e : error) :
  os_OpenFile (BinPath (Session u)) w = (inl file, w1) ->
  io_Copy file src w1 = ((n, Some e), w') ->
  (exists bs,
      file_content w' (BinPath (Session u))
      = file_content w (BinPath (Session u)) ++ bs
      /\ Z.of_nat (length bs) = n)
  /\ (e = ErrUnexpectedEOF ->
   exists u',
     WriteChunk u offset src w = ((n, None, u'), w')
     /\ Offset (Session u') = int64_add (Offset (Session u)) n
     /\ (in_int64 (Offset (Session u) + n) ->
         Offset (Session u') = Offset (Session u) + n)
     /\ u' = set_Session u (set_Offset (Session u) (Offset (Session u'))))
  /\ (e <> ErrUnexpectedEOF ->
      WriteChunk u offset src w = ((n, Some e, u), w')).
Proof.
  intros Hopen Hcopy. unfold WriteChunk, bind. rewrite Hopen, Hcopy. split.
  { apply os_OpenFile_inl in Hopen as (-> & Hex & ->).
    apply io_Copy_appends in Hcopy as (bs & Hfiles & Hlen).
    exists bs. split; [| exact Hlen]. now apply file_content_append. }
  split.
  - intros ->. simpl. eexists. split; [reflexivity |]. simpl.
    repeat split. intros Hfit. unfold int64_add. now apply int64_wrap_id.
  - intros Hne. apply error_eqb_neq in Hne. rewrite Hne. reflexivity.
Qed.

Lemma WriteChunk_copy_error_witness :
  exists u' w',
    WriteChunk upload0 0 (Stream (bytes "abc") (Some ErrUnexpectedEOF)) world_empty
    = ((3, None, u'), w')
    /\ Offset (Session u') = 3
    /\ file_content w' "/uploads/u1.bin" = bytes "abc".
Proof.
  edestruct (WriteChunk_copy_error upload0 0
               (Stream (bytes "abc") (Some ErrUnexpectedEOF)) world_empty)
    as (_ & Hpause & _).
  - vm_compute. reflexivity.
  - vm_compute. reflexivity.
  - destruct (Hpause eq_refl) as (u' & Hret & _ & Hfit & _).
    exists u'. eexists. split; [exact Hret |]. split.
    + apply Hfit. vm_compute. split; discriminate.
    + vm_compute. reflexivity.
Defined.

(** C6.  A [WriteChunk] call appends the [n] bytes it reports to the staging
    file.  When the offset matched the size of the staging file before the
    call and the call returns without error (a pause included), the offset
    matches it afterwards; when the call returns an error, the offset is
    left as it was. *)
Theorem WriteChunk_offset_invariant (u u' : Upload) (offset : Z) (src : Reader)
    (w w' : World) (n : Z) (err : option error) :
  WriteChunk u offset src w = ((n, err, u'), w') ->
  offset_invariant u w ->
  in_int64 (Z.of_nat (length (file_content w' (BinPath (Session u))))) ->
  (exists bs,
      file_content w' (BinPath (Session u))
      = file_content w (BinPath (Session u)) ++ bs
      /\ Z.of_nat (length bs) = n)
  /\ (err = None -> offset_invariant u' w')
  /\ (err <> None -> u' = u).
Proof.
  unfold WriteChunk, bind. intros Hrun Hinv Hfit.
  destruct (os_OpenFile _ w) as [[file | e] w1] eqn:Hopen.
  - apply os_OpenFile_inl in Hopen as (-> & Hex & ->).
    destruct (io_Copy _ src _) as [[n' err'] w2] eqn:Hcopy.
    apply io_Copy_appends in Hcopy as (bs & Hfiles & Hlen).
    simpl in Hfiles.
    assert (Hc : file_content w2 (BinPath (Session u))
                 = file_content w (BinPath (Session u)) ++ bs)
      by (now apply file_content_append).
    destruct (match err' with Some e => _ | None => _ end) eqn:Hfatal;
      unfold ret in Hrun; injection Hrun as <- <- <- <-.
    + split; [eauto |]. split; [| reflexivity].
      intros ->. discriminate.
    + split; [eauto |]. split; [| congruence].
      intros _. unfold offset_invariant in *. simpl.
      rewrite Hc in *. rewrite length_app, Nat2Z.inj_add in *.
      unfold int64_add. rewrite Hinv, <- Hlen. now apply int64_wrap_id.
  - apply os_OpenFile_inr in Hopen as ->.
    unfold ret in Hrun. injection Hrun as <- <- <- <-.
    split; [exists []; now rewrite app_nil_r |].
    split; [discriminate | reflexivity].
Qed.

Lemma WriteChunk_offset_invariant_witness :
  offset_invariant
    (WriteChunk upload0 0 (Stream (bytes "abc") None) world_empty).1.2
    (WriteChunk upload0 0 (Stream (bytes "abc") None) world_empty).2.
Proof.
  edestruct (WriteChunk_offset_invariant upload0)
    with (offset := 0) (src := Stream (bytes "abc") None) (w := world_empty)
    as (_ & Hinv & _).
  - vm_compute. reflexivity.
  - vm_compute. reflexivity.
  - vm_compute. split; discriminate.
  - apply Hinv. reflexivity.
Defined.

(** C6, as stated, fails: a copy that stops with an error other than
    [io.ErrUnexpectedEOF] after three bytes leaves three bytes in the
    staging file and the offset at zero. *)
Lemma WriteChunk_error_breaks_offset_invariant :
  let r := WriteChunk upload0 0
             (Stream (bytes "abc") (Some (ErrOther "connection reset")))
             world_empty in
  offset_invariant upload0 world_empty
  /\ r.1.1 = (3, Some (ErrOther "connection reset"))
  /\ ~ offset_invariant r.1.2 r.2.
Proof.
  vm_compute. repeat split; discriminate.
Qed.

(** ** Properties of checksum verification *)

Lemma Session_with_lock (u : Upload) : Session (with_lock u) = Session u.
Proof. unfold with_lock. now destruct (negb _). Qed.

Lemma Node_with_lock (u : Upload) : Node (with_lock u) = Node u.
Proof. unfold with_lock. now destruct (negb _). Qed.

Lemma String_eqb_empty (s : string) : negb (String.eqb s "") = false <-> s = "".
Proof.
  rewrite negb_false_iff. apply String.eqb_eq.
Qed.

Lemma String_eqb_nonempty (s : string) : negb (String.eqb s "") = true <-> s <> "".
Proof.
  rewrite negb_true_iff. apply String.eqb_neq.
Qed.

Lemma checkHash_None (expected : string) (h : hash_Hash) :
  checkHash expected h = None <-> expected = hex_EncodeToString (Sum h).
Proof.
  unfold checkHash.
  destruct (String.eqb expected (hex_EncodeToString (Sum h))) eqn:E; simpl.
  - apply String.eqb_eq in E. tauto.
  - apply String.eqb_neq in E. split; [discriminate | tauto].
Qed.

Lemma checkHash_Some (expected : string) (h : hash_Hash) (e : error) :
  checkHash expected h = Some e -> exists m, e = ChecksumMismatch m.
Proof.
  unfold checkHash. destruct (negb _); [| discriminate].
  intros [= <-]. eauto.
Qed.

(** C2.  [FinishUpload] compares one declared checksum at most, the first
    non-empty one in the order SHA1, MD5, ADLER32: with the digests computed
    from the staging file, its outcome is that of this one comparison
    (rejected with failure cleanup, or accepted and committed); with no
    expectation it commits.  So a SHA1 expectation that matches makes it
    commit whatever the MD5 and ADLER32 expectations are. *)
Theorem FinishUpload_checksum_priority `{Env} (u : Upload) (w w1 : World)
    (sha1h md5h adler32h : hash_Hash) :
  digests (with_lock u) w = ((sha1h, md5h, adler32h), w1) ->
  let s := Session u in
  let outcome (check : option error) :=
    match check with
    | Some err =>
        (let* u' := Cleanup (with_lock u) true false in ret (Some err, u')) w1
    | None => commit (with_lock u) sha1h md5h adler32h w1
    end in
  (ChecksumSHA1 s <> "" ->
   FinishUpload u w = outcome (checkHash (ChecksumSHA1 s) sha1h))
  /\ (ChecksumSHA1 s = "" -> ChecksumMD5 s <> "" ->
      FinishUpload u w = outcome (checkHash (ChecksumMD5 s) md5h))
  /\ (ChecksumSHA1 s = "" -> ChecksumMD5 s = "" -> ChecksumADLER32 s <> "" ->
      FinishUpload u w = outcome (checkHash (ChecksumADLER32 s) adler32h))
  /\ (ChecksumSHA1 s = "" -> ChecksumMD5 s = "" -> ChecksumADLER32 s = "" ->
      FinishUpload u w = outcome None)
  /\ (ChecksumSHA1 s <> "" ->
      ChecksumSHA1 s = hex_EncodeToString (Sum sha1h) ->
      FinishUpload u w = outcome None).
Proof.
  intros Hd s outcome.
  assert (Hrun : FinishUpload u w
                 = outcome (verify s sha1h md5h adler32h)).
  { unfold FinishUpload, bind at 1. rewrite Hd, Session_with_lock.
    subst outcome s. simpl. now destruct (verify _ _ _ _). }
  rewrite Hrun. unfold verify.
  repeat split.
  - intros H1. apply String_eqb_nonempty in H1. now rewrite H1.
  - intros H1 H2. apply String_eqb_empty in H1.
    apply String_eqb_nonempty in H2. now rewrite H1, H2.
  - intros H1 H2 H3. apply String_eqb_empty in H1, H2.
    apply String_eqb_nonempty in H3. now rewrite H1, H2, H3.
  - intros H1 H2 H3. apply String_eqb_empty in H1, H2, H3.
    now rewrite H1, H2, H3.
  - intros H1 H2. apply String_eqb_nonempty in H1. rewrite H1.
    apply checkHash_None in H2. now rewrite H2.
Qed.

Lemma ascii_lower_hexdigit (n : N) : ascii_lower (hexdigit n) = hexdigit n.
Proof.
  destruct n as [| p]; [reflexivity |].
  do 4 (try destruct p as [p | p |]); reflexivity.
Qed.

Lemma hex_EncodeToString_lower (bs : list byte) :
  strings_ToLower (hex_EncodeToString bs) = hex_EncodeToString bs.
Proof.
  induction bs as [| b bs IH]; [reflexivity |].
  cbn [hex_EncodeToString strings_ToLower].
  now rewrite !ascii_lower_hexdigit, IH.
Qed.

(** C3.  The comparison of [checkHash] is exact: a declared value passes if
    and only if it is the hex encoding of the computed digest, which is in
    lower case; a declared value with an upper-case letter is rejected with
    a checksum mismatch. *)
Theorem checkHash_exact (expected : string) (h : hash_Hash) :
  (checkHash expected h = None <-> expected = hex_EncodeToString (Sum h))
  /\ strings_ToLower (hex_EncodeToString (Sum h)) = hex_EncodeToString (Sum h)
  /\ (strings_ToLower expected <> expected ->
      exists m, checkHash expected h = Some (ChecksumMismatch m)).
Proof.
  split; [apply checkHash_None |].
  split; [apply hex_EncodeToString_lower |].
  intros Hup. destruct (checkHash expected h) as [e |] eqn:E.
  - destruct (checkHash_Some _ _ _ E) as [m ->]. eauto.
  - apply checkHash_None in E. subst expected.
    now rewrite hex_EncodeToString_lower in Hup.
Qed.

Lemma FinishUpload_checksum_priority_witness :
  (@FinishUpload reva_env upload_sha1_right_md5_wrong world_wiki).1.1 = None.
Proof.
  edestruct (@FinishUpload_checksum_priority reva_env
               upload_sha1_right_md5_wrong world_wiki)
    as (_ & _ & _ & _ & Hsha1).
  - vm_compute. reflexivity.
  - rewrite Hsha1.
    + vm_compute. reflexivity.
    + discriminate.
    + vm_compute. reflexivity.
Defined.

Lemma checkHash_exact_witness :
  exists m,
    checkHash "11E60398" (Write adler32_New (bytes "Wikipedia"))
    = Some (ChecksumMismatch m).
Proof.
  apply (checkHash_exact "11E60398" (Write adler32_New (bytes "Wikipedia"))).
  vm_compute. discriminate.
Defined.

(** C3, as stated, fails: the ADLER32 digest of "Wikipedia" is [11e60398];
    the declared value [11E60398] differs from it in letter case only and is
    rejected, by [checkHash] and so by [FinishUpload]. *)
Lemma checkHash_rejects_upper_case :
  let h := Write adler32_New (bytes "Wikipedia") in
  hex_EncodeToString (Sum h) = "11e60398"
  /\ strings_EqualFold "11E60398" (hex_EncodeToString (Sum h)) = true
  /\ checkHash "11E60398" h
     = Some (ChecksumMismatch
               "invalid checksum: expected 11E60398 got 3131653630333938")
  /\ (@FinishUpload reva_env upload_adler32_upper world_wiki).1.1
     = Some (ChecksumMismatch
               "invalid checksum: expected 11E60398 got 3131653630333938").
Proof.
  vm_compute. repeat split.
Qed.

(** ** Properties of concatenation *)











(** ** Properties of cleanup *)

Lemma best_effort_ret {A : Type} (a : A) (Q : A -> Prop) :
  Q a -> best_effort [] (ret a) Q.
Proof.
  intros HQ w. unfold ret. simpl. rewrite app_nil_r.
  repeat split; [exact HQ | exists []; now rewrite app_nil_r |].
  intros i c k e Hi. now rewrite lookup_nil in Hi.
Qed.

Lemma logged_mono (e : error) (w w' : World) (l : list LogEntry) :
  logs w' = logs w ++ l -> logged e w -> logged e w'.
Proof.
  intros Hl (lv & m & Hin). exists lv, m. rewrite Hl.
  apply elem_of_app. now left.
Qed.

Lemma best_effort_bind {A B : Type} (cs1 cs2 : list Call) (m : IO A)
    (k : A -> IO B) (Q1 : A -> Prop) (Q2 : B -> Prop) :
  best_effort cs1 m Q1 ->
  (forall a, Q1 a -> best_effort cs2 (k a) Q2) ->
  best_effort (cs1 ++ cs2) (bind m k) Q2.
Proof.
  intros H1 H2 w. unfold bind.
  destruct (H1 w) as (HQ1 & Ht1 & Hf1 & (l1 & Hl1) & Hlog1).
  destruct (m w) as [a w1]. simpl in *.
  destruct (H2 a HQ1 w1) as (HQ2 & Ht2 & Hf2 & (l2 & Hl2) & Hlog2).
  split; [exact HQ2 |].
  split; [now rewrite Ht2, Ht1, app_assoc |].
  split; [now rewrite Hf2 |].
  split; [exists (l1 ++ l2); now rewrite Hl2, Hl1, app_assoc |].
  intros i c n e Hi Hfault Hne.
  destruct (decide (i < length cs1)%nat) as [Hlt | Hge].
  - rewrite lookup_app_l in Hi by exact Hlt.
    eapply logged_mono; [exact Hl2 |]. eapply Hlog1; eauto.
  - rewrite lookup_app_r in Hi by lia.
    eapply Hlog2; [exact Hi | | exact Hne].
    rewrite Hf1, Ht1, length_app.
    replace (length (trace w) + length cs1 + (i - length cs1))%nat
      with (length (trace w) + i)%nat by lia.
    exact Hfault.
Qed.

Lemma best_effort_weaken {A : Type} (cs : list Call) (m : IO A)
    (Q Q' : A -> Prop) :
  (forall a, Q a -> Q' a) -> best_effort cs m Q -> best_effort cs m Q'.
Proof.
  intros HQ Hm w. destruct (Hm w) as (? & ? & ? & ? & ?). auto 10.
Qed.

(** A primitive whose error is logged whatever it is. *)
Lemma best_effort_log_Info (c : Call) (prim : IO (option error)) (msg : string) :
  primitive c prim ->
  best_effort [c] (let* err := prim in when_err err (log_Info msg))
    (fun _ => True).
Proof.
  intros Hp w. unfold bind.
  destruct (Hp w) as (Ht & Hf & Hl & Herr).
  destruct (prim w) as [err w1]. simpl in *.
  assert (Hlog : exists l, logs (when_err err (log_Info msg) w1).2 = logs w ++ l).
  { destruct err; simpl; rewrite Hl; eauto. exists []. now rewrite app_nil_r. }
  split; [exact I |].
  split; [destruct err; exact Ht |].
  split; [destruct err; exact Hf |].
  split; [exact Hlog |].
  intros [| [| i]] c' k e Hi Hfault _; try discriminate.
  injection Hi as <-. rewrite Nat.add_0_r in Hfault.
  rewrite (Herr _ _ Hfault). simpl.
  exists Info, msg. rewrite Hl. apply elem_of_app. right. now left.
Qed.

(** A primitive whose error is logged unless it is [fs.ErrNotExist]. *)
Lemma best_effort_log_Error (c : Call) (prim : IO (option error)) (msg : string) :
  primitive c prim ->
  best_effort [c]
    (let* err := prim in when_err (not_ErrNotExist err) (log_Error msg))
    (fun _ => True).
Proof.
  intros Hp w. unfold bind.
  destruct (Hp w) as (Ht & Hf & Hl & Herr).
  destruct (prim w) as [err w1]. simpl in *.
  assert (Hsame : forall o, trace (when_err o (log_Error msg) w1).2 = trace w1
                            /\ faults (when_err o (log_Error msg) w1).2 = faults w1
                            /\ exists l, logs (when_err o (log_Error msg) w1).2
                                         = logs w ++ l).
  { intros [e |]; simpl; rewrite Hl; eauto. repeat split.
    exists []. now rewrite app_nil_r. }
  destruct (Hsame (not_ErrNotExist err)) as (Ht' & Hf' & Hl').
  split; [exact I |].
  split; [now rewrite Ht' |].
  split; [now rewrite Hf' |].
  split; [exact Hl' |].
  intros [| [| i]] c' k e Hi Hfault Hne; try discriminate.
  injection Hi as <-. rewrite Nat.add_0_r in Hfault.
  rewrite (Herr _ _ Hfault). simpl. rewrite Hne. simpl.
  exists Error, msg. rewrite Hl. apply elem_of_app. right. now left.
Qed.

Lemma primitive_os_Remove (p : string) : primitive (CRemove p) (os_Remove p).
Proof.
  intros w. unfold os_Remove, bind, call.
  destruct (faults w _ _) as [[k e] |] eqn:Hf; simpl.
  - repeat split. now intros ? ? [= _ <-].
  - destruct (exists_file _ _); simpl; repeat split; discriminate.
Qed.

Lemma primitive_os_RemoveAll (p : string) :
  primitive (CRemoveAll p) (os_RemoveAll p).
Proof.
  intros w. unfold os_RemoveAll, bind, call.
  destruct (faults w _ _) as [[k e] |] eqn:Hf; simpl.
  - repeat split. now intros ? ? [= _ <-].
  - repeat split; discriminate.
Qed.

Lemma primitive_utils_RemoveItem (p : string) :
  primitive (CRemoveItem p) (utils_RemoveItem p).
Proof.
  intros w. unfold utils_RemoveItem, bind, call.
  destruct (faults w _ _) as [[k e] |] eqn:Hf; simpl.
  - repeat split. now intros ? ? [= _ <-].
  - repeat split; discriminate.
Qed.

Lemma primitive_lu_CopyMetadata (src dst : string)
    (filter : string -> list byte -> list byte * bool) :
  primitive (CCopyMetadata src dst) (lu_CopyMetadata src dst filter).
Proof.
  intros w. unfold lu_CopyMetadata, bind, call.
  destruct (faults w _ _) as [[k e] |] eqn:Hf; simpl.
  - repeat split. now intros ? ? [= _ <-].
  - destruct (files w !! src), (files w !! dst); simpl; repeat split; discriminate.
Qed.

Lemma primitive_Session_Purge (s : tus_Session) :
  primitive (CPurge (ID s)) (Session_Purge s).
Proof.
  intros w. unfold Session_Purge, bind, call.
  destruct (faults w _ _) as [[k e] |] eqn:Hf; simpl.
  - repeat split. now intros ? ? [= _ <-].
  - case_bool_decide; simpl; repeat split; discriminate.
Qed.

Lemma best_effort_ext {A : Type} (cs : list Call) (m m' : IO A) (Q : A -> Prop) :
  (forall w, m w = m' w) -> best_effort cs m Q -> best_effort cs m' Q.
Proof.
  intros Heq Hm w. rewrite <- Heq. apply Hm.
Qed.

Lemma bind_assoc {A B C : Type} (m : IO A) (f : A -> IO B) (g : B -> IO C)
    (w : World) :
  bind (bind m f) g w = bind m (fun x => bind (f x) g) w.
Proof.
  unfold bind. now destruct (m w).
Qed.

Lemma best_effort_step_Info {A : Type} (c : Call) (cs : list Call)
    (prim : IO (option error)) (msg : string) (rest : IO A) (Q : A -> Prop) :
  primitive c prim ->
  best_effort cs rest Q ->
  best_effort (c :: cs)
    (let* err := prim in let* _ := when_err err (log_Info msg) in rest) Q.
Proof.
  intros Hp Hrest.
  apply (best_effort_ext _
           (bind (let* err := prim in when_err err (log_Info msg))
                 (fun _ => rest))).
  { intros w. apply bind_assoc. }
  apply (best_effort_bind [c] cs _ _ (fun _ => True)).
  - now apply best_effort_log_Info.
  - intros _ _. exact Hrest.
Qed.

Lemma best_effort_cleanup_node `{Env} (u : Upload) (n : node_Node) :
  best_effort (cleanup_node_calls u n) (cleanup_node u n)
    (fun u' => Session u' = Session u).
Proof.
  unfold cleanup_node, cleanup_node_calls.
  destruct (String.eqb _ _).
  - apply best_effort_step_Info; [apply primitive_utils_RemoveItem |].
    apply best_effort_step_Info; [apply primitive_os_Remove |].
    now apply best_effort_ret.
  - apply best_effort_step_Info; [apply primitive_lu_CopyMetadata |].
    apply best_effort_step_Info; [apply primitive_os_RemoveAll |].
    now apply best_effort_ret.
Qed.

Lemma best_effort_cleanup `{Env} (u : Upload) (cleanNode cleanBin cleanInfo : bool) :
  best_effort (cleanup_calls u cleanNode cleanBin cleanInfo)
    (cleanup u cleanNode cleanBin cleanInfo)
    (fun u' => Session u' = Session u).
Proof.
  unfold cleanup, cleanup_calls, node_step.
  apply (best_effort_bind _ _ _ _ (fun u' => Session u' = Session u)).
  { destruct cleanNode, (Node u) as [n |];
      try (now apply best_effort_ret).
    apply best_effort_cleanup_node. }
  intros u' Hs. rewrite <- Hs.
  apply (best_effort_bind _ _ _ _ (fun _ => True)).
  { destruct cleanBin; [| now apply best_effort_ret].
    apply best_effort_log_Error, primitive_os_Remove. }
  intros _ _.
  rewrite <- (app_nil_r (if cleanInfo then _ else _)).
  apply (best_effort_bind _ _ _ _ (fun _ => True)).
  { destruct cleanInfo; [| now apply best_effort_ret].
    apply best_effort_log_Error, primitive_Session_Purge. }
  intros _ _. now apply best_effort_ret.
Qed.

(** The node step creates no file, keeps the session store and logs at
    level [Info] only. *)
Lemma cleanup_node_quiet `{Env} (u : Upload) (n : node_Node) (w : World) :
  error_entries (cleanup_node u n w).2 = error_entries w
  /\ sessions (cleanup_node u n w).2 = sessions w
  /\ (forall q, files w !! q = None -> files (cleanup_node u n w).2 !! q = None).
Proof.
  unfold cleanup_node, error_entries.
  destruct (String.eqb _ _);
    unfold bind, utils_RemoveItem, os_Remove, lu_CopyMetadata, os_RemoveAll,
      call, bind, when_err, log_Info, ret; simpl;
    repeat match goal with
      | |- context [faults w ?t ?c] => destruct (faults w t c) as [[? ?] |]; simpl
      | |- context [exists_file ?a ?b] => destruct (exists_file a b) eqn:?; simpl
      | |- context [files w !! ?p] =>
          lazymatch goal with
          | _ : files w !! p = _ |- _ => fail
          | _ => destruct (files w !! p) eqn:?; simpl
          end
      end;
    rewrite ?List.filter_app, ?app_nil_r; simpl;
    (split; [reflexivity |]); (split; [reflexivity |]); intros q Hq;
    repeat first
      [ exact Hq
      | apply map_lookup_filter_None; left
      | apply lookup_delete_None; right
      | apply lookup_insert_None; split; [| congruence] ].
Qed.

Lemma errors_Is_PathError_NotExist (op p : string) :
  errors_Is (PathError op p ErrNotExist) ErrNotExist = true.
Proof. reflexivity. Qed.

(** With the staging file absent and no injected fault, the staging-file
    step changes nothing but the trace. *)
Lemma cleanup_bin_absent (u : Upload) (w : World) :
  files w !! BinPath (Session u) = None ->
  faults w (length (trace w)) (CRemove (BinPath (Session u))) = None ->
  cleanup_bin u w
  = (tt, set_trace w (trace w ++ [CRemove (BinPath (Session u))])).
Proof.
  intros Habs Hok. unfold cleanup_bin, os_Remove, bind, call, exists_file.
  rewrite Hok. simpl. rewrite Habs.
  rewrite bool_decide_eq_false_2 by (intros [? ?]; discriminate).
  reflexivity.
Qed.

Lemma cleanup_info_absent (u : Upload) (w : World) :
  ID (Session u) ∉ sessions w ->
  faults w (length (trace w)) (CPurge (ID (Session u))) = None ->
  cleanup_info u w
  = (tt, set_trace w (trace w ++ [CPurge (ID (Session u))])).
Proof.
  intros Habs Hok. unfold cleanup_info, Session_Purge, bind, call.
  rewrite Hok. simpl.
  rewrite bool_decide_eq_false_2 by exact Habs.
  reflexivity.
Qed.

Lemma cleanup_steps `{Env} (u : Upload) (cleanNode cleanBin cleanInfo : bool)
    (w : World) :
  cleanup u cleanNode cleanBin cleanInfo w
  = let (u1, w1) := node_step u cleanNode w in
    let w2 := if cleanBin then (cleanup_bin u1 w1).2 else w1 in
    let w3 := if cleanInfo then (cleanup_info u1 w2).2 else w2 in
    (u1, w3).
Proof.
  unfold cleanup, bind.
  destruct (node_step u cleanNode w) as [u1 w1].
  destruct cleanBin, cleanInfo; unfold ret; simpl.
  - destruct (cleanup_bin u1 w1) as [[] w2]. simpl.
    now destruct (cleanup_info u1 w2) as [[] w3].
  - now destruct (cleanup_bin u1 w1) as [[] w2].
  - now destruct (cleanup_info u1 w1) as [[] w3].
  - reflexivity.
Qed.

Lemma node_step_quiet `{Env} (u : Upload) (cleanNode : bool) (w : World) :
  Session (node_step u cleanNode w).1 = Session u
  /\ faults (node_step u cleanNode w).2 = faults w
  /\ error_entries (node_step u cleanNode w).2 = error_entries w
  /\ sessions (node_step u cleanNode w).2 = sessions w
  /\ (forall q, files w !! q = None ->
                files (node_step u cleanNode w).2 !! q = None).
Proof.
  unfold node_step. destruct cleanNode, (Node u) as [n |]; auto.
  destruct (best_effort_cleanup_node u n w) as (Hs & _ & Hf & _).
  destruct (cleanup_node_quiet u n w) as (He & Hss & Hfiles). auto 10.
Qed.

(** Cleanup when the staging file and the session record are already gone:
    nothing is logged at level [Error]. *)
Lemma cleanup_again `{Env} (u : Upload) (cleanNode : bool) (w : World) :
  files w !! BinPath (Session u) = None ->
  ID (Session u) ∉ sessions w ->
  (forall t, faults w t (CRemove (BinPath (Session u))) = None) ->
  (forall t, faults w t (CPurge (ID (Session u))) = None) ->
  error_entries (cleanup u cleanNode true true w).2 = error_entries w
  /\ files (cleanup u cleanNode true true w).2 !! BinPath (Session u) = None
  /\ ID (Session u) ∉ sessions (cleanup u cleanNode true true w).2.
Proof.
  intros Hbin Hinfo Hrm Hpurge. rewrite cleanup_steps.
  destruct (node_step_quiet u cleanNode w) as (Hs & Hf & He & Hss & Hfiles).
  specialize (Hfiles _ Hbin).
  destruct (node_step u cleanNode w) as [u1 w1]. simpl in *.
  rewrite cleanup_bin_absent; rewrite ?Hs, ?Hf; auto.
  rewrite cleanup_info_absent; rewrite ?Hs; simpl; rewrite ?Hf, ?Hss; auto.
Qed.

(** C8.  [Terminate] always returns nil.  [cleanup] makes the calls of all
    the steps asked of it whatever the fate of the earlier ones (for
    [Terminate]: the node step when a node is set, the removal of the
    staging file and the purge of the session record), returns no error,
    and logs the failure of each call that is not [fs.ErrNotExist].  When
    the staging file and the session record are already absent, it logs
    nothing at level [Error] and they stay absent. *)
Theorem Terminate_best_effort `{Env} (u : Upload) (w : World) :
  (Terminate u w).1.1 = None
  /\ trace (Terminate u w).2 = trace w ++ cleanup_calls u true true true
  /\ (forall i c k e,
         cleanup_calls u true true true !! i = Some c ->
         faults w (length (trace w) + i)%nat c = Some (k, e) ->
         errors_Is e ErrNotExist = false ->
         logged e (Terminate u w).2)
  /\ (forall cleanNode cleanBin cleanInfo,
         best_effort (cleanup_calls u cleanNode cleanBin cleanInfo)
           (cleanup u cleanNode cleanBin cleanInfo)
           (fun u' => Session u' = Session u))
  /\ (files w !! BinPath (Session u) = None ->
      ID (Session u) ∉ sessions w ->
      (forall t, faults w t (CRemove (BinPath (Session u))) = None) ->
      (forall t, faults w t (CPurge (ID (Session u))) = None) ->
      error_entries (Terminate u w).2 = error_entries w
      /\ files (Terminate u w).2 !! BinPath (Session u) = None
      /\ ID (Session u) ∉ sessions (Terminate u w).2).
Proof.
  assert (Hrun : Terminate u w
                 = ((None, (cleanup u true true true w).1),
                    (cleanup u true true true w).2)).
  { unfold Terminate, bind, ret. now destruct (cleanup _ _ _ _ w). }
  rewrite Hrun. simpl.
  destruct (best_effort_cleanup u true true true w) as (_ & Ht & _ & _ & Hlog).
  split; [reflexivity |]. split; [exact Ht |]. split; [exact Hlog |].
  split; [intros; apply best_effort_cleanup |].
  now apply cleanup_again.
Qed.

Lemma Terminate_best_effort_witness :
  (@Terminate reva_env upload0 world_remove_denied).1.1 = None
  /\ logged (ErrOther "permission denied")
       (@Terminate reva_env upload0 world_remove_denied).2
  /\ error_entries (@Terminate reva_env upload0 world_cleaned).2 = [].
Proof.
  destruct (@Terminate_best_effort reva_env upload0 world_remove_denied)
    as (Hnil & _ & Hlog & _).
  destruct (@Terminate_best_effort reva_env upload0 world_cleaned)
    as (_ & _ & _ & _ & Hagain).
  split; [exact Hnil |]. split.
  - apply (Hlog 0%nat (CRemove "/uploads/u1.bin") 0%nat); reflexivity.
  - destruct Hagain as (Hnone & _).
    + reflexivity.
    + apply not_elem_of_empty.
    + reflexivity.
    + reflexivity.
    + rewrite Hnone. reflexivity.
Defined.

(** ** Properties of finalization *)

Lemma digests_frame (u : Upload) (w : World) :
  files (digests u w).2 = files w
  /\ sessions (digests u w).2 = sessions w
  /\ faults (digests u w).2 = faults w.
Proof.
  unfold digests, os_Open, drain, bind, call, when_err, log_Info, ret.
  destruct (faults w _ _) as [[? ?] |]; simpl; [auto |].
  destruct (exists_file _ _); simpl; [| auto].
  destruct (faults w _ _) as [[? ?] |]; simpl; auto.
Qed.

Lemma verify_Some (s : tus_Session) (sha1h md5h adler32h : hash_Hash) (e : error) :
  verify s sha1h md5h adler32h = Some e -> exists m, e = ChecksumMismatch m.
Proof.
  unfold verify.
  repeat (destruct (negb _); [apply checkHash_Some |]). discriminate.
Qed.

Lemma cleanup_bin_spec (u : Upload) (w : World) :
  trace (cleanup_bin u w).2 = trace w ++ [CRemove (BinPath (Session u))]
  /\ faults (cleanup_bin u w).2 = faults w
  /\ sessions (cleanup_bin u w).2 = sessions w
  /\ (forall p, files w !! p = None -> files (cleanup_bin u w).2 !! p = None)
  /\ (faults w (length (trace w)) (CRemove (BinPath (Session u))) = None ->
      files (cleanup_bin u w).2 !! BinPath (Session u) = None).
Proof.
  unfold cleanup_bin, os_Remove, bind, call, exists_file.
  destruct (faults w _ _) as [[k e] |]; simpl.
  - destruct (errors_Is e ErrNotExist); simpl; repeat split; auto; discriminate.
  - case_bool_decide as Hex; simpl; repeat split; auto.
    + intros p Hp. apply lookup_delete_None. now right.
    + intros _. apply lookup_delete_eq.
    + intros _. destruct (files w !! _) eqn:E; [| reflexivity].
      exfalso. apply Hex. eauto.
Qed.

Lemma cleanup_info_spec (u : Upload) (w : World) :
  trace (cleanup_info u w).2 = trace w ++ [CPurge (ID (Session u))]
  /\ faults (cleanup_info u w).2 = faults w
  /\ files (cleanup_info u w).2 = files w
  /\ (faults w (length (trace w)) (CPurge (ID (Session u))) = None ->
      ID (Session u) ∉ sessions (cleanup_info u w).2).
Proof.
  unfold cleanup_info, Session_Purge, bind, call.
  destruct (faults w _ _) as [[k e] |]; simpl.
  - destruct (errors_Is e ErrNotExist); simpl; repeat split; discriminate.
  - case_bool_decide as Hin; simpl; repeat split; auto.
    intros _ Hin'. apply elem_of_difference in Hin' as [_ Hout].
    apply Hout. now apply elem_of_singleton.
Qed.

(** C5.  When the selected declared checksum does not match, [FinishUpload]
    on an upload without a node returns the checksum-mismatch error; after
    the digest pass it makes two calls only, the removal of the staging file
    and the purge of the session record (no node is created or removed,
    nothing is written, published or propagated), no file appears, and
    unless these two calls themselves fail the staging file and the session
    record are gone. *)
Theorem FinishUpload_checksum_mismatch `{Env} (u : Upload) (w w1 : World)
    (sha1h md5h adler32h : hash_Hash) (e : error) :
  Node u = None ->
  digests (with_lock u) w = ((sha1h, md5h, adler32h), w1) ->
  verify (Session u) sha1h md5h adler32h = Some e ->
  (FinishUpload u w).1.1 = Some e
  /\ (exists m, e = ChecksumMismatch m)
  /\ Node (FinishUpload u w).1.2 = None
  /\ trace (FinishUpload u w).2
     = trace w1 ++ [CRemove (BinPath (Session u)); CPurge (ID (Session u))]
  /\ (forall p, files w !! p = None -> files (FinishUpload u w).2 !! p = None)
  /\ (faults w (length (trace w1)) (CRemove (BinPath (Session u))) = None ->
      files (FinishUpload u w).2 !! BinPath (Session u) = None)
  /\ (faults w (S (length (trace w1))) (CPurge (ID (Session u))) = None ->
      ID (Session u) ∉ sessions (FinishUpload u w).2).
Proof.
  intros Hnode Hd Hv.
  pose proof (digests_frame (with_lock u) w) as (Hf1 & Hs1 & Ho1).
  rewrite Hd in Hf1, Hs1, Ho1. simpl in Hf1, Hs1, Ho1.
  pose proof (Session_with_lock u) as Hs0.
  pose proof (Node_with_lock u) as Hn0. rewrite Hnode in Hn0.
  assert (Hrun : FinishUpload u w
                 = ((Some e, with_lock u),
                    (cleanup_info (with_lock u)
                       (cleanup_bin (with_lock u) w1).2).2)).
  { unfold FinishUpload. cbv zeta. unfold bind at 1. rewrite Hd.
    cbv beta iota. rewrite Hs0, Hv.
    unfold bind at 1, Cleanup, bind at 1. rewrite cleanup_steps.
    unfold node_step. rewrite Hn0. unfold ret. simpl. now rewrite Hn0. }
  rewrite Hrun. simpl.
  destruct (cleanup_bin_spec (with_lock u) w1)
    as (Ht2 & Ho2 & Hs2 & Hnew2 & Hgone2).
  destruct (cleanup_info_spec (with_lock u) (cleanup_bin (with_lock u) w1).2)
    as (Ht3 & Ho3 & Hf3 & Hgone3).
  rewrite Hs0 in *.
  split; [reflexivity |].
  split; [eapply verify_Some; eauto |].
  split; [exact Hn0 |].
  split; [now rewrite Ht3, Ht2, <- app_assoc |].
  split; [intros p Hp; rewrite Hf3; apply Hnew2; now rewrite Hf1 |].
  split.
  - intros Hok. rewrite Hf3. apply Hgone2. now rewrite Ho1.
  - intros Hok. apply Hgone3. rewrite Ho2, Ho1, Ht2, length_app. simpl.
    now rewrite Nat.add_1_r.
Qed.

Lemma FinishUpload_checksum_mismatch_witness :
  let r := @FinishUpload reva_env upload_adler32_wrong world_wiki in
  (exists m, r.1.1 = Some (ChecksumMismatch m))
  /\ files r.2 !! "/uploads/u1.bin" = None
  /\ "u1" ∉ sessions r.2.
Proof.
  edestruct (@FinishUpload_checksum_mismatch reva_env upload_adler32_wrong
               world_wiki)
    as (Herr & (m & Hm) & _ & _ & _ & Hbin & Hinfo).
  - reflexivity.
  - vm_compute. reflexivity.
  - vm_compute. reflexivity.
  - simpl. split; [exists m; now rewrite Herr, Hm |].
    split; [now apply Hbin | now apply Hinfo].
Defined.

(** ** Properties of the version rollback *)

Lemma rollback_filter_spec `{Env} (a : string) (v : list byte) :
  rollback_filter a v = (v, allow_listed a).
Proof. reflexivity. Qed.

Lemma allow_listed_spec `{Env} (a : string) :
  allow_listed a = true
  <-> String.prefix ChecksumPrefix a = true
      \/ a = TypeAttr \/ a = BlobIDAttr \/ a = BlobsizeAttr \/ a = MTimeAttr.
Proof.
  unfold allow_listed, rollback_filter, strings_HasPrefix. simpl.
  rewrite !orb_true_iff, !String.eqb_eq. tauto.
Qed.

Lemma select_attrs_lookup `{Env} (m : gmap string (list byte)) (a : string) :
  select_attrs rollback_filter m !! a
  = if allow_listed a then m !! a else None.
Proof.
  unfold select_attrs. rewrite map_lookup_imap.
  unfold allow_listed, rollback_filter.
  destruct (m !! a) as [v |]; simpl;
    match goal with |- context [if ?b then _ else _] => now destruct b end.
Qed.

(** The node step for an upload that replaced a version, when neither call
    is made to fail. *)
Lemma cleanup_node_rollback `{Env} (u : Upload) (n : node_Node) (w : World)
    (live snap : File) :
  VersionsPath (Session u) <> "" ->
  files w !! VersionsPath (Session u) = Some snap ->
  files w !! InternalPath n = Some live ->
  faults w (length (trace w))
    (CCopyMetadata (VersionsPath (Session u)) (InternalPath n)) = None ->
  faults w (S (length (trace w))) (CRemoveAll (VersionsPath (Session u))) = None ->
  cleanup_node u n w
  = (u,
     set_files
       (set_trace w
          (trace w ++ [CCopyMetadata (VersionsPath (Session u)) (InternalPath n);
                       CRemoveAll (VersionsPath (Session u))]))
       (remove_tree (VersionsPath (Session u))
          (<[InternalPath n :=
               mkFile (content live)
                 (select_attrs rollback_filter (xattrs snap) ∪ xattrs live)]>
             (files w)))).
Proof.
  intros Hp Hsnap Hlive Hcopy Hrm.
  unfold cleanup_node. apply String.eqb_neq in Hp. rewrite Hp.
  unfold lu_CopyMetadata, os_RemoveAll, bind, call.
  rewrite Hcopy. simpl. rewrite Hsnap, Hlive. simpl.
  rewrite length_app, Nat.add_1_r. simpl. rewrite Hrm. simpl.
  unfold ret, set_files, set_trace. simpl. now rewrite <- app_assoc.
Qed.

Lemma cleanup_bin_other (u : Upload) (w : World) (q : string) :
  q <> BinPath (Session u) ->
  files (cleanup_bin u w).2 !! q = files w !! q.
Proof.
  intros Hq. unfold cleanup_bin, os_Remove, bind, call.
  destruct (faults w _ _) as [[k e] |]; simpl.
  - now destruct (errors_Is e ErrNotExist).
  - destruct (exists_file _ _); simpl; [| reflexivity].
    now apply lookup_delete_ne.
Qed.

Lemma under_refl (p : string) : under p p = true.
Proof. unfold under. now rewrite String.eqb_refl. Qed.

(** C7.  Failure cleanup of an upload that replaced a version, with its node
    set and neither call of the node step made to fail: the live node keeps
    its content; each of its attributes on the allow-list (checksum prefix,
    type, blob id, blob size, modification time) that the version snapshot
    carries takes the snapshot's value, every other attribute keeps its
    value; the snapshot is removed. *)
Theorem cleanup_restores_version `{Env} (u : Upload) (n : node_Node) (w : World)
    (live snap : File) (cleanBin cleanInfo : bool) :
  Node u = Some n ->
  VersionsPath (Session u) <> "" ->
  files w !! VersionsPath (Session u) = Some snap ->
  files w !! InternalPath n = Some live ->
  under (VersionsPath (Session u)) (InternalPath n) = false ->
  BinPath (Session u) <> InternalPath n ->
  faults w (length (trace w))
    (CCopyMetadata (VersionsPath (Session u)) (InternalPath n)) = None ->
  faults w (S (length (trace w))) (CRemoveAll (VersionsPath (Session u))) = None ->
  (exists live',
      files (cleanup u true cleanBin cleanInfo w).2 !! InternalPath n = Some live'
      /\ content live' = content live
      /\ forall a,
           xattrs live' !! a
           = if allow_listed a
             then match xattrs snap !! a with
                  | Some v => Some v
                  | None => xattrs live !! a
                  end
             else xattrs live !! a)
  /\ files (cleanup u true cleanBin cleanInfo w).2 !! VersionsPath (Session u) = None
  /\ Node (cleanup u true cleanBin cleanInfo w).1 = Some n
  /\ (forall a,
         allow_listed a = true
         <-> String.prefix ChecksumPrefix a = true
             \/ a = TypeAttr \/ a = BlobIDAttr \/ a = BlobsizeAttr
             \/ a = MTimeAttr).
Proof.
  intros Hnode Hp Hsnap Hlive Hunder Hbin Hcopy Hrm.
  rewrite cleanup_steps. unfold node_step. rewrite Hnode.
  rewrite (cleanup_node_rollback u n w live snap) by assumption.
  set (w1 := set_files _ _).
  assert (Hlive1 : files w1 !! InternalPath n
                   = Some (mkFile (content live)
                             (select_attrs rollback_filter (xattrs snap)
                                ∪ xattrs live))).
  { subst w1. simpl. unfold remove_tree.
    apply map_lookup_filter_Some. split; [apply lookup_insert_eq | exact Hunder]. }
  assert (Hsnap1 : files w1 !! VersionsPath (Session u) = None).
  { subst w1. simpl. unfold remove_tree.
    apply map_lookup_filter_None. right. intros x _. simpl.
    now rewrite under_refl. }
  set (w2 := if cleanBin then _ else w1).
  assert (Hw2 : files w2 !! InternalPath n = files w1 !! InternalPath n
                /\ files w2 !! VersionsPath (Session u) = None).
  { subst w2. destruct cleanBin; [| auto]. split.
    - apply cleanup_bin_other. congruence.
    - now apply cleanup_bin_spec. }
  set (w3 := if cleanInfo then _ else w2).
  assert (Hw3 : files w3 = files w2).
  { subst w3. destruct cleanInfo; [| reflexivity]. apply cleanup_info_spec. }
  simpl. rewrite Hw3. destruct Hw2 as (Hw2a & Hw2b). rewrite Hw2a, Hw2b, Hlive1.
  split; [| split; [reflexivity | split; [exact Hnode | apply allow_listed_spec]]].
  eexists. split; [reflexivity |]. split; [reflexivity |].
  intros a. simpl. rewrite lookup_union, select_attrs_lookup.
  destruct (allow_listed a), (xattrs snap !! a), (xattrs live !! a); reflexivity.
Qed.

Lemma cleanup_restores_version_witness :
  exists live',
    files (@cleanup reva_env upload_versioned true true true world_versioned).2
      !! "/spaces/space1/nodes/node1" = Some live'
    /\ xattrs live' !! "user.ocis.cs.sha1" = Some (bytes "old-sha1")
    /\ xattrs live' !! "user.ocis.blobid" = Some (bytes "old-blob")
    /\ xattrs live' !! "user.ocis.name" = Some (bytes "file.txt").
Proof.
  edestruct (@cleanup_restores_version reva_env upload_versioned node1
               world_versioned)
    with (cleanBin := true) (cleanInfo := true)
    as ((live' & Hlive & _ & Hattrs) & _).
  - reflexivity.
  - discriminate.
  - vm_compute. reflexivity.
  - vm_compute. reflexivity.
  - reflexivity.
  - discriminate.
  - reflexivity.
  - reflexivity.
  - exists live'. split; [exact Hlive |].
    rewrite !Hattrs. vm_compute. repeat split.
Defined.

(** ** Properties of the commit *)

Lemma CreateNodeForUpload_inl `{Env} (u : Upload) (attrs : gmap string (list byte))
    (w w' : World) (n : node_Node) :
  CreateNodeForUpload u attrs w = (inl n, w') ->
  n = lu_NodeFromID (SpaceRoot (Session u)) (NodeID (Session u))
  /\ trace w' = trace w ++ [CCreateNodeForUpload (ID (Session u)) attrs]
  /\ exists f, files w' !! InternalPath n = Some f /\ attrs ⊆ xattrs f.
Proof.
  unfold CreateNodeForUpload, bind, call.
  destruct (faults w _ _) as [[k e] |]; [discriminate |].
  intros [= <- <-]. simpl. split; [reflexivity |]. split; [reflexivity |].
  eexists. split; [apply lookup_insert_eq |]. simpl.
  apply map_union_subseteq_l.
Qed.

Lemma publish_BytesReceived_frame `{Env} (u : Upload) (w w' : World)
    (err : option error) :
  publish_BytesReceived u w = (err, w') ->
  files w' = files w /\ sessions w' = sessions w /\ logs w' = logs w
  /\ faults w' = faults w
  /\ (trace w' = trace w
      \/ exists url, trace w' = trace w ++ [CPublish (ID (Session u)) url]).
Proof.
  unfold publish_BytesReceived, URL, events_Publish, external, bind, call, ret.
  destruct (jwt_SignedString _ _) as [tkn | e0]; intros [= _ <-]; simpl;
    repeat split; eauto.
Qed.

(** C9.  When the node is created, a publisher is set and the publication of
    the event fails, be it in signing the URL or in publishing,
    [FinishUpload] returns that error with the node recorded on the upload;
    after the creation of the node it makes no call other than, once the URL
    is signed, the publication itself: no cleanup, no write of the blob, no
    propagation; files, session records and log are those the creation of
    the node left, and the node is among the files, with its checksum
    attributes. *)
Theorem FinishUpload_publish_failure `{Env} (u : Upload) (w w1 w2 w3 : World)
    (sha1h md5h adler32h : hash_Hash) (n : node_Node) (e : error) :
  let u2 := set_Node (with_lock u) (Some n) in
  digests (with_lock u) w = ((sha1h, md5h, adler32h), w1) ->
  verify (Session u) sha1h md5h adler32h = None ->
  CreateNodeForUpload (with_lock u) (checksum_attrs sha1h md5h adler32h) w1
  = (inl n, w2) ->
  pub u = true ->
  publish_BytesReceived u2 w2 = (Some e, w3) ->
  FinishUpload u w = ((Some e, u2), w3)
  /\ Node u2 = Some n
  /\ files w3 = files w2 /\ sessions w3 = sessions w2 /\ logs w3 = logs w2
  /\ (trace w3 = trace w2
      \/ exists url, trace w3 = trace w2 ++ [CPublish (ID (Session u)) url])
  /\ (exists f, files w3 !! InternalPath n = Some f
                /\ checksum_attrs sha1h md5h adler32h ⊆ xattrs f)
  /\ (forall e0,
         jwt_SignedString (transfer_claims u2 w2) (TransferSharedSecret (tknopts u))
         = inr e0 ->
         e = Wrapped e0 "error signing token with claims" /\ w3 = w2)
  /\ (forall tkn,
         jwt_SignedString (transfer_claims u2 w2) (TransferSharedSecret (tknopts u))
         = inl tkn ->
         exists k,
           faults w2 (length (trace w2))
             (CPublish (ID (Session u)) (joinurl [DataGatewayEndpoint (tknopts u); tkn]))
           = Some (k, e)).
Proof.
  intros u2 Hd Hv Hcreate Hpub Hfail.
  pose proof (Session_with_lock u) as Hs0.
  assert (Hpub2 : pub u2 = true).
  { subst u2. unfold with_lock. now destruct (negb _). }
  assert (Htk : tknopts u2 = tknopts u).
  { subst u2. unfold with_lock. now destruct (negb _). }
  assert (Hs2 : Session u2 = Session u) by (subst u2; exact Hs0).
  split.
  { unfold FinishUpload. cbv zeta. unfold bind at 1. rewrite Hd.
    cbv beta iota. rewrite Hs0, Hv. unfold commit, bind at 1.
    rewrite Hcreate. unfold after_commit. cbv zeta. fold u2.
    rewrite Hpub2. unfold bind at 1. now rewrite Hfail. }
  split; [reflexivity |].
  pose proof (CreateNodeForUpload_inl _ _ _ _ _ Hcreate) as (_ & _ & f & Hf & Hsub).
  pose proof (publish_BytesReceived_frame _ _ _ _ Hfail)
    as (Hfiles & Hsess & Hlogs & _ & Htrace).
  rewrite Hs2 in Htrace.
  split; [exact Hfiles |]. split; [exact Hsess |]. split; [exact Hlogs |].
  split; [exact Htrace |].
  split; [exists f; now rewrite Hfiles |].
  revert Hfail.
  unfold publish_BytesReceived, URL, events_Publish, external, bind, call, ret.
  rewrite Htk, Hs2.
  destruct (jwt_SignedString _ _) as [tkn | e0].
  - destruct (faults w2 _ _) as [[k e1] |] eqn:Hfault; [| discriminate].
    intros [= <- <-]. split; [discriminate |].
    intros tkn' [= <-]. exists k. exact Hfault.
  - intros [= <- <-]. split; [| discriminate].
    now intros e0' [= <-].
Qed.

Lemma FinishUpload_publish_failure_witness :
  (@FinishUpload reva_env_nosign upload_pub world_wiki).1.1
  = Some (Wrapped (ErrOther "key is invalid") "error signing token with claims")
  /\ (@FinishUpload reva_env upload_pub world_publish_down).1.1
     = Some (ErrOther "nats: no servers available").
Proof.
  split.
  - edestruct (@FinishUpload_publish_failure reva_env_nosign upload_pub world_wiki)
      as (Hrun & _).
    + vm_compute. reflexivity.
    + vm_compute. reflexivity.
    + vm_compute. reflexivity.
    + reflexivity.
    + vm_compute. reflexivity.
    + exact (f_equal (fun r => r.1.1) Hrun).
  - edestruct (@FinishUpload_publish_failure reva_env upload_pub world_publish_down)
      as (Hrun & _).
    + vm_compute. reflexivity.
    + vm_compute. reflexivity.
    + vm_compute. reflexivity.
    + reflexivity.
    + vm_compute. reflexivity.
    + exact (f_equal (fun r => r.1.1) Hrun).
Defined.

Lemma append_inj (p a b : string) : p +:+ a = p +:+ b -> a = b.
Proof.
  induction p as [| c p IH]; simpl; [auto |].
  intros [= Heq]. auto.
Qed.

Lemma checksum_attrs_lookup `{Env} (sha1h md5h adler32h : hash_Hash) :
  checksum_attrs sha1h md5h adler32h !! (ChecksumPrefix +:+ "sha1") = Some (Sum sha1h)
  /\ checksum_attrs sha1h md5h adler32h !! (ChecksumPrefix +:+ "md5") = Some (Sum md5h)
  /\ checksum_attrs sha1h md5h adler32h !! (ChecksumPrefix +:+ "adler32")
     = Some (Sum adler32h).
Proof.
  unfold checksum_attrs. split; [apply lookup_insert_eq |]. split.
  - rewrite lookup_insert_ne; [apply lookup_insert_eq |].
    intros Heq. apply append_inj in Heq. discriminate.
  - do 2 (rewrite lookup_insert_ne;
          [| intros Heq; apply append_inj in Heq; discriminate]).
    apply lookup_insert_eq.
Qed.

(** C10.  When the staging file cannot be opened and the session declares no
    checksum, [FinishUpload] does not fail there: the error of [os.Open] and
    the error of reading the nil file are logged at level [Info], the three
    hashes have received no byte, and [FinishUpload] goes on to create the
    node with the digests of the empty stream as its checksum attributes;
    when the node is created, it carries them. *)
Theorem FinishUpload_unreadable_staging `{Env} (u : Upload) (w w1 : World)
    (e : error) :
  os_Open (BinPath (Session u)) w = (inr e, w1) ->
  ChecksumSHA1 (Session u) = "" ->
  ChecksumMD5 (Session u) = "" ->
  ChecksumADLER32 (Session u) = "" ->
  let w2 :=
    set_logs w1
      (logs w1 ++ [mkLog Info "error opening binPath" (Some e);
                   mkLog Info "error copying checksums" (Some ErrInvalid)]) in
  let attrs := checksum_attrs sha1_New md5_New adler32_New in
  digests (with_lock u) w = ((sha1_New, md5_New, adler32_New), w2)
  /\ FinishUpload u w = commit (with_lock u) sha1_New md5_New adler32_New w2
  /\ attrs !! (ChecksumPrefix +:+ "sha1") = Some (Sum sha1_New)
  /\ attrs !! (ChecksumPrefix +:+ "md5") = Some (Sum md5_New)
  /\ attrs !! (ChecksumPrefix +:+ "adler32") = Some (Sum adler32_New)
  /\ hex_EncodeToString (Sum sha1_New)
     = "da39a3ee5e6b4b0d3255bfef95601890afd80709"
  /\ hex_EncodeToString (Sum md5_New) = "d41d8cd98f00b204e9800998ecf8427e"
  /\ hex_EncodeToString (Sum adler32_New) = "00000001"
  /\ (forall n w3,
         CreateNodeForUpload (with_lock u) attrs w2 = (inl n, w3) ->
         FinishUpload u w = after_commit (with_lock u) n w3
         /\ trace w3 = trace w1 ++ [CCreateNodeForUpload (ID (Session u)) attrs]
         /\ exists f,
              files w3 !! InternalPath n = Some f
              /\ xattrs f !! (ChecksumPrefix +:+ "sha1") = Some (Sum sha1_New)
              /\ xattrs f !! (ChecksumPrefix +:+ "md5") = Some (Sum md5_New)
              /\ xattrs f !! (ChecksumPrefix +:+ "adler32")
                 = Some (Sum adler32_New)).
Proof.
  intros Hopen H1 H2 H3 w2 attrs.
  pose proof (Session_with_lock u) as Hs0.
  pose proof (checksum_attrs_lookup sha1_New md5_New adler32_New)
    as (Ha1 & Ha2 & Ha3).
  assert (Hd : digests (with_lock u) w = ((sha1_New, md5_New, adler32_New), w2)).
  { unfold digests. rewrite Hs0. unfold bind at 1. rewrite Hopen.
    subst w2. unfold bind, log_Info, drain, when_err, ret, set_logs. simpl.
    now rewrite <- app_assoc. }
  assert (Hrun : FinishUpload u w
                 = commit (with_lock u) sha1_New md5_New adler32_New w2).
  { unfold FinishUpload. cbv zeta. unfold bind at 1. rewrite Hd.
    cbv beta iota. rewrite Hs0. unfold verify. now rewrite H1, H2, H3. }
  split; [exact Hd |]. split; [exact Hrun |].
  split; [exact Ha1 |]. split; [exact Ha2 |]. split; [exact Ha3 |].
  split; [vm_compute; reflexivity |].
  split; [vm_compute; reflexivity |].
  split; [vm_compute; reflexivity |].
  intros n w3 Hcreate.
  split.
  { rewrite Hrun. unfold commit, bind. fold attrs. now rewrite Hcreate. }
  apply CreateNodeForUpload_inl in Hcreate as (_ & Ht & f & Hf & Hsub).
  rewrite Hs0 in Ht. split; [exact Ht |].
  exists f. split; [exact Hf |].
  repeat split; eapply lookup_weaken; eauto.
Qed.

Lemma FinishUpload_unreadable_staging_witness :
  exists f,
    files (@FinishUpload reva_env upload0 world_no_staging).2
      !! "/spaces/space1/nodes/node1" = Some f
    /\ hex_EncodeToString <$> xattrs f !! "user.ocis.cs.sha1"
       = Some "da39a3ee5e6b4b0d3255bfef95601890afd80709".
Proof.
  edestruct (@FinishUpload_unreadable_staging reva_env upload0 world_no_staging)
    as (_ & Hrun & _ & _ & _ & Hhex & _).
  - vm_compute. reflexivity.
  - reflexivity.
  - reflexivity.
  - reflexivity.
  - rewrite Hrun. vm_compute. eexists. split; reflexivity.
Defined.

(** * Further properties *)

(** ** Chunk ingestion, continued *)

Lemma WriteChunk_frame (u : Upload) (offset : Z) (src : Reader) (w : World) :
  faults (WriteChunk u offset src w).2 = faults w
  /\ sessions (WriteChunk u offset src w).2 = sessions w
  /\ logs (WriteChunk u offset src w).2 = logs w
  /\ exists bs,
       files (WriteChunk u offset src w).2
       = append_bytes (BinPath (Session u)) bs (files w)
       /\ Z.of_nat (length bs) = (WriteChunk u offset src w).1.1.1.
Proof.
  unfold WriteChunk, bind.
  destruct (os_OpenFile _ w) as [[file | e] w1] eqn:Hopen.
  - apply os_OpenFile_inl in Hopen as (-> & _ & ->).
    destruct (io_Copy _ src _) as [[n err] w2] eqn:Hcopy.
    pose proof (io_Copy_appends _ _ _ _ _ _ Hcopy) as (bs & Hfiles & Hlen).
    assert (Hrest : faults w2 = faults w /\ sessions w2 = sessions w
                    /\ logs w2 = logs w).
    { revert Hcopy. unfold io_Copy, bind.
      destruct (drain src _) as [[data fin] w1] eqn:Hd.
      apply drain_files in Hd as (_ & Hs & Hf & Hl). unfold call.
      destruct (faults w1 _ _) as [[k e] |];
        [destruct (k <? length data)%nat |]; intros [= _ _ <-]; simpl; auto. }
    destruct Hrest as (Hf & Hs & Hl).
    destruct (match err with Some e => _ | None => _ end); unfold ret; simpl;
      (split; [exact Hf |]); (split; [exact Hs |]); (split; [exact Hl |]);
      exists bs; auto.
  - apply os_OpenFile_inr in Hopen as ->. unfold ret. simpl.
    split; [reflexivity |]. split; [reflexivity |]. split; [reflexivity |].
    exists []. now rewrite append_bytes_nil.
Qed.

(** A body that is delivered, to its end or until it is cut off, with the
    staging file present and no fault on it. *)
Lemma WriteChunk_body (u : Upload) (offset : Z) (data : list byte)
    (paused : bool) (w : World) (f : File) :
  staging_sound w (BinPath (Session u)) ->
  files w !! BinPath (Session u) = Some f ->
  WriteChunk u offset (body data paused) w
  = ((Z.of_nat (length data), None,
      set_Session u
        (set_Offset (Session u)
           (int64_add (Offset (Session u)) (Z.of_nat (length data))))),
     set_files
       (set_trace w
          (trace w ++ [COpenFile (BinPath (Session u)); CWrite (BinPath (Session u))]))
       (<[BinPath (Session u) := mkFile (content f ++ data) (xattrs f)]> (files w))).
Proof.
  intros Hsound Hf.
  unfold WriteChunk, os_OpenFile, io_Copy, body, drain, bind, call, ret,
    exists_file. simpl.
  rewrite (proj1 (Hsound _)), Hf.
  rewrite bool_decide_eq_true_2 by eauto. simpl.
  rewrite (proj2 (Hsound _)).
  assert (Ha : append_bytes (BinPath (Session u)) data (files w)
               = <[BinPath (Session u) := mkFile (content f ++ data) (xattrs f)]>
                   (files w)).
  { unfold append_bytes. apply map_eq. intros q.
    destruct (decide (BinPath (Session u) = q)) as [<- | Hne].
    - now rewrite lookup_alter_eq, lookup_insert_eq, Hf.
    - now rewrite lookup_alter_ne, lookup_insert_ne. }
  unfold set_files, set_trace. simpl. rewrite Ha, <- app_assoc.
  now destruct paused.
Qed.

(** X1.  Chunks that are delivered one after the other, each to its end or
    until the client pauses, are all accepted whatever offsets the client
    declares; the staging file then holds its former content followed by
    the chunks in the order of submission, its attributes are untouched,
    and the session offset has advanced by the total number of bytes, so
    that it still equals the size of the staging file. *)
Theorem write_chunks_in_order (chunks : list (Z * list byte * bool)) :
  forall (u : Upload) (w : World) (f : File),
    staging_sound w (BinPath (Session u)) ->
    files w !! BinPath (Session u) = Some f ->
    offset_invariant u w ->
    in_int64 (Z.of_nat (length (content f ++ delivered chunks))) ->
    (write_chunks u (bodies chunks) w).1.1 = None
    /\ files (write_chunks u (bodies chunks) w).2 !! BinPath (Session u)
       = Some (mkFile (content f ++ delivered chunks) (xattrs f))
    /\ Offset (Session (write_chunks u (bodies chunks) w).1.2)
       = Offset (Session u) + Z.of_nat (length (delivered chunks))
    /\ offset_invariant (write_chunks u (bodies chunks) w).1.2
         (write_chunks u (bodies chunks) w).2.
Proof.
  induction chunks as [| [[offset data] paused] rest IH];
    intros u w f Hsound Hf Hinv Hfit.
  - unfold delivered. simpl. rewrite app_nil_r, Z.add_0_r.
    repeat split; auto. rewrite Hf. now destruct f.
  - unfold bodies, delivered in *. simpl in *.
    unfold bind at 1 2 3 4 5.
    rewrite (WriteChunk_body u offset data paused w f Hsound Hf). simpl.
    set (u1 := set_Session u _). set (w1 := set_files _ _).
    assert (Hlen : Offset (Session u) = Z.of_nat (length (content f))).
    { unfold offset_invariant, file_content in Hinv. now rewrite Hf in Hinv. }
    assert (Hf1 : files w1 !! BinPath (Session u1)
                  = Some (mkFile (content f ++ data) (xattrs f)))
      by apply lookup_insert_eq.
    rewrite !length_app, !Nat2Z.inj_add in Hfit.
    assert (Hoff : Offset (Session u1)
                   = Offset (Session u) + Z.of_nat (length data)).
    { subst u1. simpl. unfold int64_add. apply int64_wrap_id.
      unfold in_int64, min_int64, max_int64 in *. lia. }
    destruct (IH u1 w1 (mkFile (content f ++ data) (xattrs f)))
      as (Herr & Hfiles & Hfinal & Hinv').
    + exact Hsound.
    + exact Hf1.
    + unfold offset_invariant, file_content. rewrite Hf1, Hoff, Hlen.
      cbn [content]. rewrite length_app. lia.
    + simpl. rewrite !length_app, !Nat2Z.inj_add.
      unfold in_int64, min_int64, max_int64 in *. lia.
    + simpl in Hfiles. rewrite <- app_assoc in Hfiles.
      change (BinPath (Session u1)) with (BinPath (Session u)) in *.
      split; [exact Herr |]. split; [exact Hfiles |].
      split; [| exact Hinv'].
      rewrite Hfinal, Hoff, length_app. lia.
Qed.

Lemma write_chunks_in_order_witness :
  file_content
    (write_chunks upload0
       (bodies [(0, bytes "Wiki", false); (0, bytes "pe", true);
                (6, bytes "dia", false)]) world_empty).2
    "/uploads/u1.bin" = bytes "Wikipedia"
  /\ Offset (Session
               (write_chunks upload0
                  (bodies [(0, bytes "Wiki", false); (0, bytes "pe", true);
                           (6, bytes "dia", false)]) world_empty).1.2) = 9.
Proof.
  destruct (write_chunks_in_order
              [(0, bytes "Wiki", false); (0, bytes "pe", true);
               (6, bytes "dia", false)]
              upload0 world_empty (mkFile [] ∅))
    as (_ & Hfiles & Hoff & _).
  - intros t. split; reflexivity.
  - reflexivity.
  - reflexivity.
  - vm_compute. split; discriminate.
  - split.
    + unfold file_content. simpl BinPath in Hfiles. rewrite Hfiles. reflexivity.
    + rewrite Hoff. reflexivity.
Defined.

(** X2.  [WriteChunk] changes nothing but the content of the staging file,
    to which it only appends: the session records, the log, every other
    file and the attributes of the staging file stay as they are.  It never
    creates the staging file: when the file is missing, the call returns
    zero bytes and an error (the not-exist error of [os.OpenFile] unless the
    call is made to fail otherwise) and leaves the upload and all files
    untouched. *)
Theorem WriteChunk_only_appends (u : Upload) (offset : Z) (src : Reader)
    (w : World) :
  let r := WriteChunk u offset src w in
  sessions r.2 = sessions w
  /\ logs r.2 = logs w
  /\ (forall p, p <> BinPath (Session u) -> files r.2 !! p = files w !! p)
  /\ (forall f,
         files w !! BinPath (Session u) = Some f ->
         exists bs,
           files r.2 !! BinPath (Session u)
           = Some (mkFile (content f ++ bs) (xattrs f))
           /\ Z.of_nat (length bs) = r.1.1.1)
  /\ (files w !! BinPath (Session u) = None ->
      files r.2 = files w /\ r.1.1.1 = 0 /\ r.1.2 = u
      /\ exists e,
           r.1.1.2 = Some e
           /\ (faults w (length (trace w)) (COpenFile (BinPath (Session u))) = None ->
               e = PathError "open" (BinPath (Session u)) ErrNotExist)).
Proof.
  intros r. subst r.
  destruct (WriteChunk_frame u offset src w) as (_ & Hs & Hl & bs & Hf & Hlen).
  split; [exact Hs |]. split; [exact Hl |].
  split.
  { intros p Hp. rewrite Hf. unfold append_bytes. now rewrite lookup_alter_ne. }
  split.
  { intros f Hex. exists bs. split; [| exact Hlen].
    rewrite Hf. unfold append_bytes. now rewrite lookup_alter_eq, Hex. }
  intros Hnone. clear Hs Hl bs Hf Hlen.
  unfold WriteChunk, os_OpenFile, bind, call, exists_file, ret. simpl.
  rewrite bool_decide_eq_false_2 by (rewrite Hnone; intros [? ?]; discriminate).
  destruct (faults w _ _) as [[k e] |]; simpl.
  - repeat split. exists e. split; [reflexivity | discriminate].
  - repeat split. eexists. split; reflexivity.
Qed.

Lemma WriteChunk_only_appends_witness :
  (WriteChunk upload0 0 (body (bytes "abc") false) world_no_staging).1.1
  = (0, Some (PathError "open" "/uploads/u1.bin" ErrNotExist))
  /\ files (WriteChunk upload0 0 (body (bytes "abc") false) world_no_staging).2 = ∅.
Proof.
  destruct (WriteChunk_only_appends upload0 0 (body (bytes "abc") false)
              world_no_staging) as (_ & _ & _ & _ & Hmissing).
  destruct Hmissing as (Hfiles & Hn & _ & e & He & Hcause); [reflexivity |].
  split.
  - rewrite (surjective_pairing (WriteChunk _ _ _ _).1.1).
    rewrite Hn, He, Hcause; reflexivity.
  - exact Hfiles.
Defined.

(** X3.  What [WriteChunk] has appended is what [GetReader] delivers: after
    a chunk is accepted, the reader over the staging file yields the former
    content followed by the chunk and ends with [io.EOF].  [GetReader]
    itself changes no file, no session record and no log entry; when the
    staging file is missing it returns the error together with a nil file,
    which reads as [os.ErrInvalid]. *)
Theorem GetReader_reads_back (u : Upload) (offset : Z) (data : list byte)
    (paused : bool) (w : World) (f : File) :
  staging_sound w (BinPath (Session u)) ->
  reading_sound w (BinPath (Session u)) ->
  files w !! BinPath (Session u) = Some f ->
  let written := WriteChunk u offset (body data paused) w in
  let opened := GetReader written.1.2 written.2 in
  let read := drain opened.1.1 opened.2 in
  opened.1.2 = None
  /\ read.1 = (content f ++ data, None)
  /\ files read.2 = files written.2
  /\ sessions read.2 = sessions w
  /\ logs read.2 = logs w
  /\ (forall u0 w0,
         files w0 !! BinPath (Session u0) = None ->
         exists e,
           (GetReader u0 w0).1 = (FileReader None, Some e)
           /\ (drain (FileReader None) (GetReader u0 w0).2).1
              = ([], Some ErrInvalid)).
Proof.
  intros Hsound Hread Hf written opened read.
  subst read opened written.
  rewrite (WriteChunk_body u offset data paused w f Hsound Hf). simpl.
  unfold GetReader, os_Open, bind, call, exists_file, ret. simpl.
  rewrite (proj1 (Hread _)). simpl.
  rewrite lookup_insert_eq, bool_decide_eq_true_2 by eauto. simpl.
  unfold bind, call. simpl. rewrite (proj2 (Hread _)). simpl.
  unfold file_content. simpl. rewrite lookup_insert_eq. simpl.
  repeat split.
  intros u0 w0 Hnone. unfold exists_file.
  rewrite bool_decide_eq_false_2 by (rewrite Hnone; intros [? ?]; discriminate).
  destruct (faults w0 _ _) as [[k e] |]; simpl; eauto.
Qed.

Lemma GetReader_reads_back_witness :
  let written := WriteChunk upload0 9 (body (bytes " (en)") false) world_wiki in
  let opened := GetReader written.1.2 written.2 in
  (drain opened.1.1 opened.2).1 = (bytes "Wikipedia (en)", None).
Proof.
  destruct (GetReader_reads_back upload0 9 (bytes " (en)") false world_wiki
              (mkFile (bytes "Wikipedia") ∅)) as (_ & Hread & _).
  - intros t. split; reflexivity.
  - intros t. split; reflexivity.
  - reflexivity.
  - exact Hread.
Defined.

(** ** The digest pass *)

(** X4.  The digest pass of [FinishUpload] feeds the same bytes to the
    SHA1, MD5 and ADLER32 hashes, a prefix of the staging file, and changes
    no file and no session record.  The bytes are the whole file when
    opening and reading it do not fail; when the read fails after [k]
    bytes, the pass does not fail: the hashes hold the first [k] bytes and
    the error is in the log at level [Info]. *)
Theorem digests_same_bytes (u : Upload) (w : World) :
  let hs := (digests u w).1 in
  let w' := (digests u w).2 in
  (algorithm hs.1.1, algorithm hs.1.2, algorithm hs.2) = (SHA1, MD5, ADLER32)
  /\ written hs.1.2 = written hs.1.1
  /\ written hs.2 = written hs.1.1
  /\ written hs.1.1 `prefix_of` file_content w (BinPath (Session u))
  /\ files w' = files w
  /\ sessions w' = sessions w
  /\ (reading_sound w (BinPath (Session u)) ->
      written hs.1.1 = file_content w (BinPath (Session u)))
  /\ (forall k e,
         faults w (length (trace w)) (COpen (BinPath (Session u))) = None ->
         is_Some (files w !! BinPath (Session u)) ->
         faults w (S (length (trace w))) (CRead (BinPath (Session u))) = Some (k, e) ->
         written hs.1.1 = take k (file_content w (BinPath (Session u)))
         /\ mkLog Info "error copying checksums" (Some e) ∈ logs w').
Proof.
  unfold digests, os_Open, drain, bind, call, when_err, log_Info, ret,
    exists_file, file_content.
  destruct (faults w (length (trace w)) _) as [[k0 e0] |] eqn:Hopen; simpl.
  { do 3 (split; [reflexivity |]). split; [apply prefix_nil |].
    do 2 (split; [reflexivity |]). split.
    - intros Hread. now rewrite (proj1 (Hread _)) in Hopen.
    - discriminate. }
  case_bool_decide as Hex; simpl.
  - rewrite length_app, Nat.add_1_r. simpl.
    destruct (faults w (S (length (trace w))) _) as [[k e] |] eqn:Hrd; simpl.
    + do 3 (split; [reflexivity |]). split; [apply prefix_take |].
      do 2 (split; [reflexivity |]). split.
      * intros Hread. now rewrite (proj2 (Hread _)) in Hrd.
      * intros k' e' _ _ [= <- <-]. split; [reflexivity |].
        apply elem_of_app. right. now left.
    + do 3 (split; [reflexivity |]). split; [reflexivity |].
      do 2 (split; [reflexivity |]). split; [reflexivity | discriminate].
  - assert (Hnone : files w !! BinPath (Session u) = None).
    { destruct (files w !! _) eqn:E; [| reflexivity]. exfalso. eauto. }
    rewrite Hnone.
    do 3 (split; [reflexivity |]). split; [apply prefix_nil |].
    do 2 (split; [reflexivity |]). split; [reflexivity |].
    intros k e _ [? ?]. discriminate.
Qed.

Lemma digests_same_bytes_witness :
  written (digests upload0 world_wiki).1.1.1 = bytes "Wikipedia"
  /\ written (digests upload0 world_short_read).1.1.1 = bytes "Wiki".
Proof.
  destruct (digests_same_bytes upload0 world_wiki)
    as (_ & _ & _ & _ & _ & _ & Hall & _).
  destruct (digests_same_bytes upload0 world_short_read)
    as (_ & _ & _ & _ & _ & _ & _ & Hshort).
  split.
  - rewrite Hall; [reflexivity |]. intros t. split; reflexivity.
  - destruct (Hshort 4%nat (ErrOther "input/output error")) as (Hk & _).
    + reflexivity.
    + eexists. reflexivity.
    + reflexivity.
    + rewrite Hk. reflexivity.
Defined.

Lemma hex_EncodeToString_length (bs : list byte) :
  String.length (hex_EncodeToString bs) = (2 * length bs)%nat.
Proof.
  induction bs as [| b bs IH]; [reflexivity |].
  cbn [hex_EncodeToString String.length length]. rewrite IH. lia.
Qed.

Lemma Sum_length (h : hash_Hash) : length (Sum h) = digest_size (algorithm h).
Proof.
  unfold Sum. destruct (algorithm h); simpl.
  - unfold Digest.sha1_Sum.
    now destruct (fold_left _ _ _) as [[[[h0 h1] h2] h3] h4].
  - unfold Digest.md5_Sum.
    now destruct (fold_left _ _ _) as [[[a b] c] d].
  - unfold Digest.adler32_Sum.
    now destruct (fold_left _ _ _) as [a b].
Qed.

Lemma digests_algorithms (u : Upload) (w : World) :
  algorithm (digests u w).1.1.1 = SHA1
  /\ algorithm (digests u w).1.1.2 = MD5
  /\ algorithm (digests u w).1.2 = ADLER32.
Proof.
  unfold digests, os_Open, drain, bind, call, when_err, log_Info, ret.
  destruct (faults w _ _) as [[? ?] |]; simpl; [auto |].
  destruct (exists_file _ _); simpl; [| auto].
  destruct (faults w _ _) as [[? ?] |]; simpl; auto.
Qed.

(** X5.  A declared checksum of the wrong length never passes: when the
    expectation [FinishUpload] selects (SHA1, else MD5, else ADLER32) does
    not have twice as many characters as the digest has bytes (40, 32, 8),
    [FinishUpload] returns a checksum mismatch, whatever the staging file
    holds and whatever else fails. *)
Theorem FinishUpload_rejects_wrong_length `{Env} (u : Upload) (w : World)
    (a : Algorithm) (expected : string) :
  selected_checksum (Session u) = Some (a, expected) ->
  String.length expected <> (2 * digest_size a)%nat ->
  exists m, (FinishUpload u w).1.1 = Some (ChecksumMismatch m).
Proof.
  intros Hsel Hlen.
  unfold FinishUpload. cbv zeta. unfold bind at 1.
  destruct (digests_algorithms (with_lock u) w) as (Ha1 & Ha2 & Ha3).
  destruct (digests (with_lock u) w) as [[[sha1h md5h] adler32h] w1].
  simpl in Ha1, Ha2, Ha3. rewrite Session_with_lock.
  assert (Hv : exists m, verify (Session u) sha1h md5h adler32h
                         = Some (ChecksumMismatch m)).
  { assert (Hbad : forall h, algorithm h = a ->
                             exists m, checkHash expected h
                                       = Some (ChecksumMismatch m)).
    { intros h Hh. destruct (checkHash expected h) as [e |] eqn:E.
      - destruct (checkHash_Some _ _ _ E) as [m ->]. eauto.
      - apply checkHash_None in E. exfalso. apply Hlen.
        now rewrite E, hex_EncodeToString_length, Sum_length, Hh. }
    revert Hsel. unfold selected_checksum, verify.
    repeat (destruct (negb (String.eqb _ "")); [intros [= <- <-]; auto |]).
    discriminate. }
  destruct Hv as [m Hv]. rewrite Hv. exists m.
  unfold bind. now destruct (Cleanup _ _ _ w1).
Qed.

Lemma FinishUpload_rejects_wrong_length_witness :
  exists m,
    (@FinishUpload reva_env upload_adler32_short world_wiki).1.1
    = Some (ChecksumMismatch m).
Proof.
  apply (@FinishUpload_rejects_wrong_length reva_env upload_adler32_short
           world_wiki ADLER32 "11e6039").
  - reflexivity.
  - vm_compute. discriminate.
Defined.

(** ** The paths of [FinishUpload] *)

Lemma external_spec (c : Call) (w : World) :
  external c w = (next_fails w c, set_trace w (trace w ++ [c])).
Proof.
  unfold external, next_fails, bind, call, ret.
  now destruct (faults w _ _) as [[k e] |].
Qed.

Lemma Cleanup_without_node `{Env} (u : Upload) (failure : bool) (w : World) :
  Node u = None ->
  Cleanup u failure false w = (u, (cleanup_info u (cleanup_bin u w).2).2).
Proof.
  intros Hn. unfold Cleanup, bind at 1. rewrite cleanup_steps.
  unfold node_step. rewrite Hn. destruct failure; unfold ret; simpl;
    now rewrite Hn.
Qed.

Lemma FinishUpload_commits `{Env} (u : Upload) (w w2 : World) (n : node_Node) :
  commits u w n w2 -> FinishUpload u w = after_commit (with_lock u) n w2.
Proof.
  intros (sha1h & md5h & adler32h & w1 & Hd & Hv & Hc).
  unfold FinishUpload. cbv zeta. unfold bind at 1. rewrite Hd.
  cbv beta iota. rewrite Session_with_lock, Hv. unfold commit, bind at 1.
  now rewrite Hc.
Qed.

Lemma commits_frame `{Env} (u : Upload) (w w2 : World) (n : node_Node) :
  commits u w n w2 ->
  faults w2 = faults w
  /\ sessions w2 = sessions w
  /\ (forall p, p <> InternalPath n -> files w2 !! p = files w !! p)
  /\ is_Some (files w2 !! InternalPath n).
Proof.
  intros (sha1h & md5h & adler32h & w1 & Hd & Hv & Hc).
  pose proof (digests_frame (with_lock u) w) as (Hf1 & Hs1 & Ho1).
  rewrite Hd in Hf1, Hs1, Ho1. simpl in *.
  revert Hc. unfold CreateNodeForUpload, bind, call.
  destruct (faults w1 _ _) as [[k e] |]; [discriminate |].
  intros [= <- <-]. simpl. rewrite Hf1.
  split; [exact Ho1 |]. split; [exact Hs1 |]. split.
  - intros p Hp. now rewrite lookup_insert_ne.
  - rewrite lookup_insert_eq. eauto.
Qed.

(** X6.  When the creation of the node fails, [FinishUpload] on an upload
    without a node returns that error as it is and runs the failure
    cleanup: after the failed creation it makes two calls only, the removal
    of the staging file and the purge of the session record; nothing is
    published, written or propagated, the upload stays without a node, no
    file appears, and unless these two calls themselves fail the staging
    file and the session record are gone. *)
Theorem FinishUpload_create_failure `{Env} (u : Upload) (w w1 w2 : World)
    (sha1h md5h adler32h : hash_Hash) (e : error) :
  Node u = None ->
  digests (with_lock u) w = ((sha1h, md5h, adler32h), w1) ->
  verify (Session u) sha1h md5h adler32h = None ->
  CreateNodeForUpload (with_lock u) (checksum_attrs sha1h md5h adler32h) w1
  = (inr e, w2) ->
  (FinishUpload u w).1 = (Some e, with_lock u)
  /\ trace (FinishUpload u w).2
     = trace w2 ++ [CRemove (BinPath (Session u)); CPurge (ID (Session u))]
  /\ (forall p, files w !! p = None -> files (FinishUpload u w).2 !! p = None)
  /\ (faults w (length (trace w2)) (CRemove (BinPath (Session u))) = None ->
      files (FinishUpload u w).2 !! BinPath (Session u) = None)
  /\ (faults w (S (length (trace w2))) (CPurge (ID (Session u))) = None ->
      ID (Session u) ∉ sessions (FinishUpload u w).2).
Proof.
  intros Hnode Hd Hv Hc.
  pose proof (digests_frame (with_lock u) w) as (Hf1 & Hs1 & Ho1).
  rewrite Hd in Hf1, Hs1, Ho1. simpl in Hf1, Hs1, Ho1.
  pose proof (Session_with_lock u) as Hs0.
  pose proof (Node_with_lock u) as Hn0. rewrite Hnode in Hn0.
  assert (Hw2 : w2 = set_trace w1 (trace w1 ++ [CCreateNodeForUpload
                                                   (ID (Session (with_lock u)))
                                                   (checksum_attrs sha1h md5h adler32h)])).
  { revert Hc. unfold CreateNodeForUpload, bind, call.
    destruct (faults w1 _ _) as [[k e'] |]; [| discriminate].
    now intros [= _ <-]. }
  assert (Hrun : FinishUpload u w
                 = ((Some e, with_lock u),
                    (cleanup_info (with_lock u)
                       (cleanup_bin (with_lock u) w2).2).2)).
  { unfold FinishUpload. cbv zeta. unfold bind at 1. rewrite Hd.
    cbv beta iota. rewrite Hs0, Hv. unfold commit, bind at 1. rewrite Hc.
    unfold bind at 1. now rewrite (Cleanup_without_node _ _ _ Hn0). }
  rewrite Hrun. simpl.
  destruct (cleanup_bin_spec (with_lock u) w2)
    as (Ht2 & Ho2 & Hs2 & Hnew2 & Hgone2).
  destruct (cleanup_info_spec (with_lock u) (cleanup_bin (with_lock u) w2).2)
    as (Ht3 & Ho3 & Hf3 & Hgone3).
  rewrite Hs0 in *.
  assert (Hfw2 : files w2 = files w) by (rewrite Hw2; exact Hf1).
  assert (How2 : faults w2 = faults w) by (rewrite Hw2; exact Ho1).
  split; [reflexivity |].
  split; [now rewrite Ht3, Ht2, <- app_assoc |].
  split; [intros p Hp; rewrite Hf3; apply Hnew2; now rewrite Hfw2 |].
  split.
  - intros Hok. rewrite Hf3. apply Hgone2. now rewrite How2.
  - intros Hok. apply Hgone3. rewrite Ho2, How2, Ht2, length_app. simpl.
    now rewrite Nat.add_1_r.
Qed.

Lemma FinishUpload_create_failure_witness :
  let r := @FinishUpload reva_env upload0 world_create_denied in
  r.1.1 = Some (ErrOther "quota exceeded")
  /\ files r.2 !! "/uploads/u1.bin" = None
  /\ "u1" ∉ sessions r.2.
Proof.
  edestruct (@FinishUpload_create_failure reva_env upload0 world_create_denied)
    as (Herr & _ & _ & Hbin & Hinfo).
  - reflexivity.
  - vm_compute. reflexivity.
  - vm_compute. reflexivity.
  - vm_compute. reflexivity.
  - simpl. split; [exact (f_equal fst Herr) |].
    split; [now apply Hbin | now apply Hinfo].
Defined.

Lemma publish_step_frame `{Env} (u : Upload) (w w3 : World) (err : option error) :
  (if pub u then publish_BytesReceived u else ret None) w = (err, w3) ->
  files w3 = files w /\ sessions w3 = sessions w /\ logs w3 = logs w
  /\ faults w3 = faults w.
Proof.
  destruct (pub u).
  - intros Hp. apply publish_BytesReceived_frame in Hp. tauto.
  - intros [= _ <-]. auto.
Qed.

Lemma pub_after_commit (u : Upload) (n : node_Node) :
  pub (set_Node (with_lock u) (Some n)) = pub u
  /\ async (set_Node (with_lock u) (Some n)) = async u
  /\ Session (set_Node (with_lock u) (Some n)) = Session u.
Proof. unfold with_lock. now destruct (negb _). Qed.

(** X7.  In asynchronous mode, once the node is created and the event, if
    a publisher is set, is published, [FinishUpload] makes one more call,
    the propagation of the size difference, and returns its result: the
    blob is not written and nothing is cleaned up, so the session records,
    the log and every file are as the creation of the node left them, the
    staging file included. *)
Theorem FinishUpload_async `{Env} (u : Upload) (w w2 w3 : World) (n : node_Node) :
  let u2 := set_Node (with_lock u) (Some n) in
  let propagate := CPropagate (NID n) (SizeDiff (Session u)) in
  commits u w n w2 ->
  async u = true ->
  (if pub u then publish_BytesReceived u2 else ret None) w2 = (None, w3) ->
  FinishUpload u w
  = ((next_fails w3 propagate, u2), set_trace w3 (trace w3 ++ [propagate]))
  /\ files w3 = files w2
  /\ sessions w3 = sessions w
  /\ logs w3 = logs w2
  /\ (forall p, p <> InternalPath n -> files w3 !! p = files w !! p).
Proof.
  intros u2 propagate Hc Hasync Hpub.
  destruct (pub_after_commit u n) as (Hp2 & Ha2 & Hs2). fold u2 in Hp2, Ha2, Hs2.
  rewrite <- Hp2 in Hpub.
  pose proof (publish_step_frame _ _ _ _ Hpub) as (Hf3 & Hss3 & Hl3 & _).
  destruct (commits_frame _ _ _ _ Hc) as (_ & Hss2 & Hf2 & _).
  split.
  { rewrite (FinishUpload_commits _ _ _ _ Hc). unfold after_commit. cbv zeta.
    fold u2. unfold bind at 1. rewrite Hpub. rewrite Ha2, Hasync. simpl.
    unfold bind at 1, ret at 1. unfold tp_Propagate, bind.
    rewrite external_spec, Hs2. reflexivity. }
  split; [exact Hf3 |]. split; [now rewrite Hss3 |]. split; [exact Hl3 |].
  intros p Hp. rewrite Hf3. now apply Hf2.
Qed.

Lemma FinishUpload_async_witness :
  let r := @FinishUpload reva_env upload_async world_propagate_fails in
  r.1.1 = Some (ErrOther "propagation failed")
  /\ file_content r.2 "/uploads/u1.bin" = bytes "Wikipedia"
  /\ sessions r.2 = {["u1"]}.
Proof.
  edestruct (@FinishUpload_async reva_env upload_async world_propagate_fails)
    as (Hrun & _).
  - do 4 eexists. split; [vm_compute; reflexivity |].
    split; vm_compute; reflexivity.
  - reflexivity.
  - vm_compute. reflexivity.
  - simpl. rewrite Hrun. vm_compute. repeat split.
Defined.

Lemma unmark_spec `{Env} (u : Upload) (n : node_Node) (w : World) :
  (unmark u n w).1 = u
  /\ trace (unmark u n w).2
     = trace w ++ [CUnmarkProcessing (NID n) (ID (Session u))]
  /\ faults (unmark u n w).2 = faults w
  /\ files (unmark u n w).2 = files w
  /\ sessions (unmark u n w).2 = sessions w
  /\ (exists l, logs (unmark u n w).2 = logs w ++ l)
  /\ (forall e,
         next_fails w (CUnmarkProcessing (NID n) (ID (Session u))) = Some e ->
         mkLog Info "unmarking processing failed" (Some e) ∈ logs (unmark u n w).2).
Proof.
  unfold unmark, node_UnmarkProcessing, bind. rewrite external_spec.
  destruct (next_fails w _) as [e |]; simpl.
  - repeat split; eauto. intros e' [= <-]. apply elem_of_app. right. now left.
  - repeat split; [exists []; now rewrite app_nil_r | discriminate].
Qed.

Lemma Cleanup_steps `{Env} (u : Upload) (failure keepUpload : bool) (w : World) :
  Cleanup u failure keepUpload w
  = let c := cleanup u failure (negb keepUpload) (negb keepUpload) w in
    match Node c.1 with
    | Some n => unmark c.1 n c.2
    | None => c
    end.
Proof.
  unfold Cleanup, bind at 1. cbv zeta.
  destruct (cleanup u failure _ _ w) as [u1 w1]. simpl.
  now destruct (Node u1).
Qed.

Lemma Finalize_with_node `{Env} (u : Upload) (n : node_Node) (w : World) :
  Node u = Some n ->
  Finalize u w
  = ((blob_error <$> next_fails w (CWriteBlob (NID n) (BinPath (Session u))),
      set_Node u (Some n)),
     set_trace w (trace w ++ [CWriteBlob (NID n) (BinPath (Session u))])).
Proof.
  intros Hn. unfold Finalize. rewrite Hn. unfold bind at 1, ret at 1.
  unfold tp_WriteBlob, bind. rewrite external_spec.
  now destruct (next_fails w _).
Qed.

Lemma postprocess_spec `{Env} (u : Upload) (n : node_Node) (w : World) :
  Node u = Some n ->
  postprocess u w
  = let err := blob_error <$> next_fails w (CWriteBlob (NID n) (BinPath (Session u))) in
    let c :=
      Cleanup (set_Node u (Some n)) (bool_decide (err <> None)) false
        (set_trace w (trace w ++ [CWriteBlob (NID n) (BinPath (Session u))])) in
    ((err, c.1), (when_err err (log_Error "failed to upload") c.2).2).
Proof.
  intros Hn. unfold postprocess, bind at 1.
  rewrite (Finalize_with_node u n w Hn). cbv zeta. unfold bind at 1.
  destruct (Cleanup _ _ _ _) as [u1 w1]. unfold bind, ret.
  now destruct (blob_error <$> _).
Qed.

(** X8.  In synchronous mode, once the node is created, the event, if any,
    published and the blob written, [FinishUpload] removes the staging file,
    purges the session record, unmarks the processing flag and then
    propagates the size difference, whose result it returns.  The node step
    of the cleanup is not run: the node entry is as the creation left it,
    also when the propagation then fails. *)
Theorem FinishUpload_sync_success `{Env} (u : Upload) (w w2 w3 : World)
    (n : node_Node) :
  let u2 := set_Node (with_lock u) (Some n) in
  let bin := BinPath (Session u) in
  let id := ID (Session u) in
  let propagate := CPropagate (NID n) (SizeDiff (Session u)) in
  commits u w n w2 ->
  async u = false ->
  (if pub u then publish_BytesReceived u2 else ret None) w2 = (None, w3) ->
  next_fails w3 (CWriteBlob (NID n) bin) = None ->
  exists w7,
    FinishUpload u w
    = ((next_fails w7 propagate, u2), set_trace w7 (trace w7 ++ [propagate]))
    /\ trace w7
       = trace w3 ++ [CWriteBlob (NID n) bin; CRemove bin; CPurge id;
                      CUnmarkProcessing (NID n) id]
    /\ faults w7 = faults w
    /\ (bin <> InternalPath n ->
        files w7 !! InternalPath n = files w2 !! InternalPath n)
    /\ (faults w (S (length (trace w3))) (CRemove bin) = None ->
        files w7 !! bin = None)
    /\ (faults w (S (S (length (trace w3)))) (CPurge id) = None ->
        id ∉ sessions w7).
Proof.
  intros u2 bin id propagate Hc Hasync Hpub Hblob. subst bin id propagate.
  destruct (pub_after_commit u n) as (Hp2 & Ha2 & Hs2). fold u2 in Hp2, Ha2, Hs2.
  rewrite <- Hp2 in Hpub.
  pose proof (publish_step_frame _ _ _ _ Hpub) as (Hf3 & Hss3 & Hl3 & Ho3).
  destruct (commits_frame _ _ _ _ Hc) as (Ho2 & Hss2 & Hf2 & _).
  set (w4 := set_trace w3 (trace w3 ++ [CWriteBlob (NID n) (BinPath (Session u))])).
  pose proof (cleanup_bin_spec u2 w4) as (Ht5 & Ho5 & Hs5 & Hnew5 & Hgone5).
  pose proof (cleanup_bin_other u2 w4) as Hother5.
  set (w5 := (cleanup_bin u2 w4).2) in *.
  pose proof (cleanup_info_spec u2 w5) as (Ht6 & Ho6 & Hf6 & Hgone6).
  set (w6 := (cleanup_info u2 w5).2) in *.
  pose proof (unmark_spec u2 n w6) as (Hu7 & Ht7 & Ho7 & Hf7 & Hs7 & _).
  set (w7 := (unmark u2 n w6).2) in *.
  exists w7. rewrite Hs2 in *.
  assert (Ht : trace w7
               = trace w3 ++ [CWriteBlob (NID n) (BinPath (Session u));
                              CRemove (BinPath (Session u));
                              CPurge (ID (Session u));
                              CUnmarkProcessing (NID n) (ID (Session u))]).
  { rewrite Ht7, Ht6, Ht5. subst w4. simpl. now rewrite <- !app_assoc. }
  assert (Ho : faults w7 = faults w).
  { rewrite Ho7, Ho6, Ho5. subst w4. simpl. now rewrite Ho3. }
  split.
  { rewrite (FinishUpload_commits _ _ _ _ Hc). unfold after_commit. cbv zeta.
    fold u2. unfold bind at 1. rewrite Hpub. rewrite Ha2, Hasync. simpl.
    unfold bind at 1. rewrite (postprocess_spec u2 n w3 eq_refl), Hs2, Hblob.
    cbv zeta. change (set_Node u2 (Some n)) with u2. fold w4.
    rewrite Cleanup_steps, cleanup_steps. simpl.
    fold w5 w6. rewrite (surjective_pairing (unmark u2 n w6)). fold w7.
    rewrite Hu7. simpl.
    unfold tp_Propagate, bind. rewrite external_spec, Session_with_lock.
    reflexivity. }
  split; [exact Ht |]. split; [exact Ho |].
  split.
  { intros Hne. rewrite Hf7, Hf6. rewrite Hother5 by congruence.
    subst w4. simpl. now rewrite Hf3. }
  split.
  - intros Hok. rewrite Hf7, Hf6. apply Hgone5. subst w4. simpl.
    rewrite Ho3, Ho2, length_app, Nat.add_1_r. exact Hok.
  - intros Hok. rewrite Hs7. apply Hgone6. rewrite Ho5, Ht5. subst w4. simpl.
    rewrite Ho3, Ho2, !length_app. simpl. rewrite Nat.add_1_r, Nat.add_1_r.
    exact Hok.
Qed.

Lemma FinishUpload_sync_success_witness :
  let r := @FinishUpload reva_env upload0 world_propagate_fails in
  r.1.1 = Some (ErrOther "propagation failed")
  /\ is_Some (files r.2 !! "/spaces/space1/nodes/node1")
  /\ files r.2 !! "/uploads/u1.bin" = None.
Proof.
  edestruct (@FinishUpload_sync_success reva_env upload0 world_propagate_fails)
    as (w7 & Hrun & _ & Ho & Hnode & Hbin & _).
  - do 4 eexists. split; [vm_compute; reflexivity |].
    split; vm_compute; reflexivity.
  - reflexivity.
  - vm_compute. reflexivity.
  - reflexivity.
  - pose proof (f_equal (fun r => r.1.1) Hrun) as Herr.
    pose proof (f_equal (fun r => files r.2) Hrun) as Hfiles.
    cbv beta in Herr, Hfiles. simpl in Herr, Hfiles.
    specialize (Hnode ltac:(discriminate)). simpl in Hnode.
    cbv zeta. rewrite Herr, Hfiles. split; [| split].
    + unfold next_fails. rewrite Ho. reflexivity.
    + rewrite Hnode. vm_compute. eauto.
    + apply Hbin. reflexivity.
Defined.

Lemma errors_Is_refl (e : error) : errors_Is e e = true.
Proof.
  destruct e; simpl; rewrite ?String.eqb_refl, ?error_eqb_refl; reflexivity.
Qed.

Lemma errors_Is_blob_error (e : error) : errors_Is (blob_error e) e = true.
Proof.
  unfold blob_error. cbn [errors_Is]. rewrite errors_Is_refl. apply orb_true_r.
Qed.

Lemma cleanup_node_result `{Env} (u : Upload) (n : node_Node) (w : World) :
  (cleanup_node u n w).1
  = if String.eqb (VersionsPath (Session u)) "" then set_Node u None else u.
Proof.
  unfold cleanup_node. destruct (String.eqb _ _); unfold bind, ret;
    repeat match goal with
      | |- context [let (_, _) := ?x in _] => destruct x
      end; reflexivity.
Qed.

Lemma cleanup_result `{Env} (u : Upload) (cleanNode cleanBin cleanInfo : bool)
    (w : World) :
  (cleanup u cleanNode cleanBin cleanInfo w).1 = (node_step u cleanNode w).1.
Proof.
  rewrite cleanup_steps. now destruct (node_step u cleanNode w).
Qed.

Lemma not_Propagate_cleanup_calls `{Env} (u : Upload) (a b c : bool) :
  Forall (fun call => forall id d, call <> CPropagate id d) (cleanup_calls u a b c).
Proof.
  unfold cleanup_calls, cleanup_node_calls.
  destruct a, (Node u) as [n |], b, c; simpl;
    try destruct (String.eqb _ _); simpl; repeat constructor; discriminate.
Qed.

(** X9.  In synchronous mode, when the write of the blob fails,
    [FinishUpload] returns that error wrapped (the cause can still be
    found in it) and logs it at level [Error]; after the failed write it
    runs the cleanup with all three steps and unmarks the processing flag
    if the upload still has a node (the node step of an upload that
    replaced no version drops it); the size difference is not
    propagated. *)
Theorem FinishUpload_blob_failure `{Env} (u : Upload) (w w2 w3 : World)
    (n : node_Node) (e : error) :
  let u2 := set_Node (with_lock u) (Some n) in
  let r := FinishUpload u w in
  let after :=
    cleanup_calls u2 true true true
    ++ match Node r.1.2 with
       | Some n' => [CUnmarkProcessing (NID n') (ID (Session u))]
       | None => []
       end in
  commits u w n w2 ->
  async u = false ->
  (if pub u then publish_BytesReceived u2 else ret None) w2 = (None, w3) ->
  next_fails w3 (CWriteBlob (NID n) (BinPath (Session u))) = Some e ->
  r.1.1 = Some (blob_error e)
  /\ errors_Is (blob_error e) e = true
  /\ Node r.1.2
     = (if String.eqb (VersionsPath (Session u)) "" then None else Some n)
  /\ trace r.2
     = trace w3 ++ CWriteBlob (NID n) (BinPath (Session u)) :: after
  /\ Forall (fun call => forall id d, call <> CPropagate id d) after
  /\ mkLog Error "failed to upload" (Some (blob_error e)) ∈ logs r.2.
Proof.
  intros u2 r after Hc Hasync Hpub Hblob.
  destruct (pub_after_commit u n) as (Hp2 & Ha2 & Hs2). fold u2 in Hp2, Ha2, Hs2.
  rewrite <- Hp2 in Hpub.
  set (w4 := set_trace w3 (trace w3 ++ [CWriteBlob (NID n) (BinPath (Session u))])).
  set (c := cleanup u2 true true true w4).
  set (fin := match Node c.1 with
              | Some n' => unmark c.1 n' c.2
              | None => c
              end).
  assert (Hrun : FinishUpload u w
                 = ((Some (blob_error e), fin.1),
                    set_logs fin.2
                      (logs fin.2
                       ++ [mkLog Error "failed to upload" (Some (blob_error e))]))).
  { rewrite (FinishUpload_commits _ _ _ _ Hc). unfold after_commit. cbv zeta.
    fold u2. unfold bind at 1. rewrite Hpub. rewrite Ha2, Hasync. simpl.
    unfold bind at 1. rewrite (postprocess_spec u2 n w3 eq_refl), Hs2, Hblob.
    cbv zeta. change (set_Node u2 (Some n)) with u2. fold w4.
    rewrite Cleanup_steps. simpl. fold c. fold fin. reflexivity. }
  destruct (best_effort_cleanup u2 true true true w4)
    as (Hsess & Htc & _ & _ & _). fold c in Hsess, Htc.
  assert (Hnode : Node c.1
                  = if String.eqb (VersionsPath (Session u)) "" then None
                    else Some n).
  { subst c. rewrite cleanup_result. unfold node_step. simpl.
    rewrite cleanup_node_result, Hs2. now destruct (String.eqb _ _). }
  assert (Hfin : Node fin.1 = Node c.1
                 /\ trace fin.2
                    = trace c.2
                      ++ match Node c.1 with
                         | Some n' => [CUnmarkProcessing (NID n') (ID (Session u))]
                         | None => []
                         end).
  { subst fin. destruct (Node c.1) as [n' |] eqn:Hn.
    - destruct (unmark_spec c.1 n' c.2) as (Hu & Ht & _).
      rewrite Hu, Ht, Hsess, Hs2. auto.
    - rewrite Hn, app_nil_r. auto. }
  destruct Hfin as (Hnf & Htf).
  subst r after. rewrite Hrun. simpl.
  split; [reflexivity |].
  split; [apply errors_Is_blob_error |].
  split; [now rewrite Hnf |].
  split.
  { rewrite Htf, Htc, Hnf. subst w4. simpl. now rewrite <- !app_assoc. }
  split.
  { apply Forall_app. split; [apply not_Propagate_cleanup_calls |].
    destruct (Node fin.1); repeat constructor; discriminate. }
  apply elem_of_app. right. now left.
Qed.

Lemma FinishUpload_blob_failure_witness :
  let r := @FinishUpload reva_env upload0 world_blobstore_down in
  r.1.1 = Some (blob_error (ErrOther "blobstore unavailable"))
  /\ Node r.1.2 = None
  /\ last (trace r.2) = Some (CPurge "u1").
Proof.
  edestruct (@FinishUpload_blob_failure reva_env upload0 world_blobstore_down)
    as (Herr & _ & Hnode & Htrace & _).
  - do 4 eexists. split; [vm_compute; reflexivity |].
    split; vm_compute; reflexivity.
  - reflexivity.
  - vm_compute. reflexivity.
  - reflexivity.
  - cbv zeta. split; [exact Herr |]. split; [exact Hnode |].
    rewrite Htrace, Hnode. reflexivity.
Defined.

(** ** Post-processing *)

(** X10.  [Finalize] changes no file, no session record and no log entry,
    and leaves the session of the upload as it is: it cleans nothing up.
    With a node set it makes one call, the write of the blob, whose error
    it returns wrapped.  Without a node it first reads the node; an error
    of that read is returned as it is, the blob is not written and the
    upload stays without a node; otherwise the node read is recorded on the
    upload and the blob is written. *)
Theorem Finalize_outcomes `{Env} (u : Upload) (w : World) :
  let read := CReadNode (SpaceRoot (Session u)) (NodeID (Session u)) in
  let write n := CWriteBlob (NID n) (BinPath (Session u)) in
  files (Finalize u w).2 = files w
  /\ sessions (Finalize u w).2 = sessions w
  /\ logs (Finalize u w).2 = logs w
  /\ Session (Finalize u w).1.2 = Session u
  /\ (forall n,
         Node u = Some n ->
         Finalize u w
         = ((blob_error <$> next_fails w (write n), set_Node u (Some n)),
            set_trace w (trace w ++ [write n])))
  /\ (forall e,
         Node u = None -> next_fails w read = Some e ->
         Finalize u w = ((Some e, u), set_trace w (trace w ++ [read])))
  /\ (Node u = None -> next_fails w read = None ->
      let n := lu_NodeFromID (SpaceRoot (Session u)) (NodeID (Session u)) in
      Node (Finalize u w).1.2 = Some n
      /\ trace (Finalize u w).2 = trace w ++ [read; write n]
      /\ (Finalize u w).1.1
         = blob_error <$> fails_at w (S (length (trace w))) (write n)).
Proof.
  intros read write.
  assert (Hframe : files (Finalize u w).2 = files w
                   /\ sessions (Finalize u w).2 = sessions w
                   /\ logs (Finalize u w).2 = logs w
                   /\ Session (Finalize u w).1.2 = Session u).
  { unfold Finalize, node_ReadNode, tp_WriteBlob, external, bind, call, ret.
    destruct (Node u); simpl;
      repeat match goal with
        | |- context [faults ?a ?b ?c] =>
            destruct (faults a b c) as [[? ?] |]; simpl
        end; auto. }
  destruct Hframe as (Hf & Hs & Hl & Hsess).
  do 4 (split; [assumption |]).
  split; [intros n Hn; now apply Finalize_with_node |].
  split.
  - intros e Hn Hread. subst read. revert Hread.
    unfold Finalize, node_ReadNode, next_fails, bind, call, ret. rewrite Hn.
    destruct (faults w _ _) as [[k e'] |]; [| discriminate].
    now intros [= <-].
  - intros Hn Hread n. subst read write. revert Hread.
    unfold Finalize, node_ReadNode, tp_WriteBlob, external, next_fails,
      fails_at, bind, call, ret. rewrite Hn.
    destruct (faults w (length (trace w)) _) as [[k e'] |]; [discriminate |].
    intros _. simpl. rewrite length_app, Nat.add_1_r. simpl. fold n.
    destruct (faults w (S (length (trace w))) _) as [[k e] |]; simpl;
      rewrite <- app_assoc; auto.
Qed.

Lemma Finalize_outcomes_witness :
  (@Finalize reva_env upload0 world_readnode_fails).1
  = (Some (ErrOther "node not found"), upload0)
  /\ (@Finalize reva_env upload_with_node world_blobstore_down).1.1
     = Some (blob_error (ErrOther "blobstore unavailable")).
Proof.
  destruct (@Finalize_outcomes reva_env upload0 world_readnode_fails)
    as (_ & _ & _ & _ & _ & Hread & _).
  destruct (@Finalize_outcomes reva_env upload_with_node world_blobstore_down)
    as (_ & _ & _ & _ & Hwrite & _).
  split.
  - rewrite (Hread (ErrOther "node not found")); reflexivity.
  - rewrite (Hwrite node1); reflexivity.
Defined.

(** ** Cleanup, continued *)

Lemma remove_tree_under (p q : string) (fs : gmap string File) :
  under p q = true -> remove_tree p fs !! q = None.
Proof.
  intros Hu. unfold remove_tree. apply map_lookup_filter_None. right.
  intros x _. simpl. now rewrite Hu.
Qed.

Lemma remove_tree_other (p q : string) (fs : gmap string File) :
  under p q = false -> remove_tree p fs !! q = fs !! q.
Proof.
  intros Hu. unfold remove_tree. destruct (fs !! q) as [f |] eqn:Hq.
  - apply map_lookup_filter_Some. auto.
  - apply map_lookup_filter_None. now left.
Qed.

Lemma remove_tree_None (p q : string) (fs : gmap string File) :
  fs !! q = None -> remove_tree p fs !! q = None.
Proof.
  intros Hq. unfold remove_tree. apply map_lookup_filter_None. now left.
Qed.

(** The node step of an upload that replaced no version. *)
Lemma cleanup_node_unversioned `{Env} (u : Upload) (n : node_Node) (w : World) :
  VersionsPath (Session u) = "" ->
  let link := filepath_Join (ParentPath n) (Name n) in
  (forall q, under (InternalPath n) q = false -> q <> link ->
             files (cleanup_node u n w).2 !! q = files w !! q)
  /\ (forall q, files w !! q = None -> files (cleanup_node u n w).2 !! q = None)
  /\ (next_fails w (CRemoveItem (InternalPath n)) = None ->
      forall q, under (InternalPath n) q = true ->
                files (cleanup_node u n w).2 !! q = None)
  /\ (fails_at w (S (length (trace w))) (CRemove link) = None ->
      files (cleanup_node u n w).2 !! link = None).
Proof.
  intros Hv link. unfold cleanup_node. rewrite Hv. simpl.
  unfold bind, utils_RemoveItem, os_Remove, call, bind, when_err, log_Info,
    ret, next_fails, fails_at, exists_file. fold link.
  destruct (faults w (length (trace w)) _) as [[k1 e1] |]; simpl;
    rewrite length_app, Nat.add_1_r;
    destruct (faults w (S (length (trace w))) _) as [[k2 e2] |]; simpl;
    try case_bool_decide; simpl.
  all: split; [intros q Hq Hl; rewrite ?lookup_delete_ne by congruence;
               rewrite ?remove_tree_other by exact Hq; reflexivity |].
  all: split; [intros q Hq;
               repeat first [ exact Hq
                            | apply lookup_delete_None; right
                            | apply remove_tree_None ] |].
  all: split; [try discriminate; intros _ q Hq;
               try (apply lookup_delete_None; right);
               now apply remove_tree_under |].
  all: try discriminate; intros _; try apply lookup_delete_eq.
  all: match goal with
       | Hn : ¬ is_Some _ |- _ =>
           destruct (_ !! link) eqn:E; [exfalso; apply Hn; eauto | reflexivity]
       end.
Qed.

(** X11.  The node step of the cleanup of an upload that replaced no
    version drops the node from the upload whatever happens to the two
    removals, so a later cleanup has no node step and [Cleanup] does not
    unmark the processing flag.  The removal of the node, unless it fails,
    leaves nothing at the node's path or below it; the removal of the entry
    in the parent, unless it fails, leaves no such entry; files elsewhere,
    the staging file apart, are untouched. *)
Theorem cleanup_drops_node `{Env} (u : Upload) (n : node_Node) (w : World)
    (cleanBin cleanInfo : bool) :
  let r := cleanup u true cleanBin cleanInfo w in
  let link := filepath_Join (ParentPath n) (Name n) in
  Node u = Some n ->
  VersionsPath (Session u) = "" ->
  Node r.1 = None
  /\ Session r.1 = Session u
  /\ (forall w', node_step r.1 true w' = (r.1, w'))
  /\ (forall failure keepUpload w',
         Cleanup r.1 failure keepUpload w'
         = cleanup r.1 failure (negb keepUpload) (negb keepUpload) w')
  /\ (next_fails w (CRemoveItem (InternalPath n)) = None ->
      forall q, under (InternalPath n) q = true -> files r.2 !! q = None)
  /\ (fails_at w (S (length (trace w))) (CRemove link) = None ->
      files r.2 !! link = None)
  /\ (forall q,
         under (InternalPath n) q = false -> q <> link ->
         q <> BinPath (Session u) ->
         files r.2 !! q = files w !! q).
Proof.
  intros r link Hn Hv.
  assert (Hu : r.1 = set_Node u None).
  { subst r. rewrite cleanup_result. unfold node_step. rewrite Hn.
    rewrite cleanup_node_result, Hv. reflexivity. }
  destruct (cleanup_node_unversioned u n w Hv) as (Hother & Hnone & Hgone & Hlink).
  fold link in Hother, Hlink.
  assert (Hfiles : (forall q, files (cleanup_node u n w).2 !! q = None ->
                              files r.2 !! q = None)
                   /\ (forall q, q <> BinPath (Session u) ->
                                 files r.2 !! q
                                 = files (cleanup_node u n w).2 !! q)).
  { subst r. rewrite cleanup_steps. unfold node_step. rewrite Hn.
    rewrite (surjective_pairing (cleanup_node u n w)).
    rewrite cleanup_node_result, Hv. simpl.
    set (w1 := (cleanup_node u n w).2).
    assert (Hi : forall w2, files (if cleanInfo
                                   then (cleanup_info (set_Node u None) w2).2
                                   else w2) = files w2).
    { intros w2. destruct cleanInfo; [apply cleanup_info_spec | reflexivity]. }
    rewrite Hi. destruct cleanBin.
    - split; [intros q; apply cleanup_bin_spec |].
      intros q Hq. now apply cleanup_bin_other.
    - split; auto. }
  destruct Hfiles as (Hkeep & Hsame).
  rewrite Hu.
  split; [reflexivity |]. split; [reflexivity |]. split; [reflexivity |].
  split.
  { intros failure keepUpload w'. rewrite Cleanup_steps. cbv zeta.
    rewrite cleanup_result. unfold node_step. simpl. now destruct failure. }
  split; [intros Hok q Hq; apply Hkeep; now apply Hgone |].
  split; [intros Hok; apply Hkeep; now apply Hlink |].
  intros q Hq Hl Hb. rewrite Hsame by exact Hb. now apply Hother.
Qed.

Lemma cleanup_drops_node_witness :
  let r := @cleanup reva_env upload_with_node true true true world_with_node in
  Node r.1 = None /\ files r.2 = ∅.
Proof.
  destruct (@cleanup_drops_node reva_env upload_with_node node1 world_with_node
              true true) as (Hnode & _); [reflexivity | reflexivity |].
  split; [exact Hnode |]. vm_compute. reflexivity.
Defined.

(** X12.  [Cleanup] that keeps the upload never purges the session record
    and asks neither for the removal of the staging file nor for the purge:
    its calls are those of the node step, when the cleanup is for a failure
    and a node is set, followed by the unmarking of the processing flag when
    the upload has a node afterwards.  Without failure it changes no file
    and returns the upload as it is.  A failure of the unmarking is logged
    at level [Info] and not returned. *)
Theorem Cleanup_keeps_upload `{Env} (u : Upload) (failure : bool) (w : World) :
  let r := Cleanup u failure true w in
  sessions r.2 = sessions w
  /\ trace r.2
     = trace w ++ cleanup_calls u failure false false
       ++ match Node r.1 with
          | Some n => [CUnmarkProcessing (NID n) (ID (Session u))]
          | None => []
          end
  /\ (failure = false -> r.1 = u /\ files r.2 = files w)
  /\ (forall n e,
         failure = false -> Node u = Some n ->
         next_fails w (CUnmarkProcessing (NID n) (ID (Session u))) = Some e ->
         mkLog Info "unmarking processing failed" (Some e) ∈ logs r.2).
Proof.
  intros r. subst r. rewrite Cleanup_steps. cbv zeta. simpl negb.
  destruct (best_effort_cleanup u failure false false w)
    as (Hsess & Ht & _ & _ & _).
  assert (Hc : sessions (cleanup u failure false false w).2 = sessions w).
  { rewrite cleanup_steps.
    destruct (node_step_quiet u failure w) as (_ & _ & _ & Hs & _).
    now destruct (node_step u failure w). }
  assert (Hno : cleanup u false false false w = (u, w)).
  { rewrite cleanup_steps. unfold node_step. simpl. reflexivity. }
  destruct (Node (cleanup u failure false false w).1) as [n |] eqn:Hn.
  - destruct (unmark_spec (cleanup u failure false false w).1 n
                (cleanup u failure false false w).2)
      as (Hu & Htu & _ & Hfu & Hsu & _ & Hlog).
    rewrite Hu, Hn, Htu, Hsu, Hsess, Ht, Hc, <- app_assoc.
    split; [reflexivity |]. split; [reflexivity |]. split.
    + intros ->. rewrite Hfu, Hno. auto.
    + intros n' e -> Hn' Hfail. rewrite Hno in *. simpl in *.
      assert (n' = n) as -> by congruence. now apply Hlog.
  - rewrite Hn, Ht, Hc, app_nil_r.
    split; [reflexivity |]. split; [reflexivity |]. split.
    + intros ->. now rewrite Hno.
    + intros n' e -> Hn'. rewrite Hno in Hn. simpl in Hn. congruence.
Qed.

Lemma Cleanup_keeps_upload_witness :
  let r := @Cleanup reva_env upload_with_node false true world_unmark_fails in
  files r.2 = files world_unmark_fails
  /\ mkLog Info "unmarking processing failed" (Some (ErrOther "metadata locked"))
     ∈ logs r.2.
Proof.
  destruct (@Cleanup_keeps_upload reva_env upload_with_node false
              world_unmark_fails) as (_ & _ & Hsame & Hlog).
  split.
  - now apply Hsame.
  - apply (Hlog node1); reflexivity.
Defined.

(** ** URLs *)

Lemma str_app_cons (x : ascii) (a b : string) :
  String x a +:+ b = String x (a +:+ b).
Proof. reflexivity. Qed.

Lemma str_app_nil_l (a : string) : "" +:+ a = a.
Proof. reflexivity. Qed.

Lemma str_app_assoc (a b c : string) : (a +:+ b) +:+ c = a +:+ (b +:+ c).
Proof.
  induction a as [| x a IH]; [reflexivity |].
  now rewrite !str_app_cons, IH.
Qed.

Lemma str_app_nil_r (a : string) : a +:+ "" = a.
Proof.
  induction a as [| x a IH]; [reflexivity |]. now rewrite str_app_cons, IH.
Qed.

Lemma rev_app_acc (s acc : string) :
  String.rev_app s acc = String.rev s +:+ acc.
Proof.
  unfold String.rev. revert acc.
  induction s as [| x s IH]; intros acc; [reflexivity |].
  cbn [String.rev_app].
  rewrite (IH (String x acc)), (IH (String x "")), str_app_assoc. reflexivity.
Qed.

Lemma rev_cons (x : ascii) (s : string) :
  String.rev (String x s) = String.rev s +:+ String x "".
Proof. unfold String.rev at 1. cbn [String.rev_app]. apply rev_app_acc. Qed.

Lemma rev_append (s1 s2 : string) :
  String.rev (s1 +:+ s2) = String.rev s2 +:+ String.rev s1.
Proof.
  induction s1 as [| x s1 IH].
  - now rewrite str_app_nil_l, str_app_nil_r.
  - now rewrite str_app_cons, !rev_cons, IH, str_app_assoc.
Qed.

Lemma rev_rev (s : string) : String.rev (String.rev s) = s.
Proof.
  induction s as [| x s IH]; [reflexivity |].
  now rewrite rev_cons, rev_append, IH.
Qed.

(** [strings.HasSuffix s "/"] holds exactly of the strings that end with a
    slash. *)
Lemma HasSuffix_slash (s : string) :
  strings_HasSuffix s "/" = true <-> exists q, s = q +:+ "/".
Proof.
  unfold strings_HasSuffix. split.
  - intros Hp. destruct (String.rev s) as [| c r] eqn:Hr; [discriminate |].
    change (String.rev "/") with "/" in Hp. cbn [String.prefix] in Hp.
    destruct (ascii_dec "/" c) as [<- |]; [| discriminate].
    exists (String.rev r). now rewrite <- (rev_rev s), Hr, rev_cons.
  - intros [q ->]. rewrite rev_append.
    change (String.rev "/") with "/". rewrite str_app_cons, str_app_nil_l.
    cbn [String.prefix]. destruct (ascii_dec "/" "/"); [| congruence].
    now destruct (String.rev q).
Qed.

Lemma substring_app (q r : string) :
  String.substring 0 (String.length q) (q +:+ r) = q.
Proof.
  induction q as [| x q IH]; [now destruct r |].
  rewrite str_app_cons. cbn [String.length String.substring]. now rewrite IH.
Qed.

Lemma length_append (a b : string) :
  String.length (a +:+ b) = (String.length a + String.length b)%nat.
Proof.
  induction a as [| x a IH]; [reflexivity |].
  rewrite str_app_cons. cbn [String.length]. now rewrite IH.
Qed.

Lemma trim_slash_slash (q : string) : trim_slash (q +:+ "/") = q.
Proof.
  unfold trim_slash.
  rewrite (proj2 (HasSuffix_slash (q +:+ "/"))) by eauto.
  rewrite length_append. cbn [String.length]. rewrite Nat.add_1_r.
  cbn [Nat.sub]. rewrite Nat.sub_0_r. apply substring_app.
Qed.

Lemma joinurl_single (p : string) : joinurl [p] = p.
Proof.
  cbn [joinurl]. rewrite bool_decide_eq_true_2 by reflexivity.
  rewrite andb_false_r. now rewrite !str_app_nil_r.
Qed.

Lemma joinurl_trim (paths : list string) :
  joinurl paths = String.concat "/" (trim_inner paths).
Proof.
  induction paths as [| p [| q rest] IH]; [reflexivity | |].
  - apply joinurl_single.
  - change (joinurl (p :: q :: rest))
      with (p +:+ (if negb (strings_HasSuffix p "/") && true then "/" else "")
              +:+ joinurl (q :: rest)).
    rewrite IH.
    change (trim_inner (p :: q :: rest))
      with (trim_slash p :: trim_inner (q :: rest)).
    assert (Hc : forall x, String.concat "/" (x :: trim_inner (q :: rest))
                           = x +:+ "/" +:+ String.concat "/" (trim_inner (q :: rest))).
    { intros x. cbn [String.concat]. now destruct (trim_inner (q :: rest)) eqn:E;
        [destruct rest; discriminate |]. }
    rewrite Hc.
    destruct (strings_HasSuffix p "/") eqn:Hs.
    + apply HasSuffix_slash in Hs as [p0 ->]. rewrite trim_slash_slash.
      cbn [negb andb]. now rewrite str_app_nil_l, str_app_assoc.
    + unfold trim_slash. rewrite Hs. reflexivity.
Qed.

(** X13.  [joinurl] joins the parts with single slashes, one trailing slash
    of a part other than the last being taken as that separator: the result
    is the parts, each but the last with one trailing slash less, separated
    by slashes.  An empty part inside is kept as an empty segment, and the
    last part ends the result as it is, so nothing is added after it. *)
Theorem joinurl_slashes (paths : list string) (p q : string) :
  joinurl paths = String.concat "/" (trim_inner paths)
  /\ (exists pre, joinurl (paths ++ [p]) = pre +:+ p)
  /\ joinurl ("" :: q :: paths) = "/" +:+ joinurl (q :: paths)
  /\ (strings_HasSuffix p "/" = false ->
      joinurl ((p +:+ "/") :: q :: paths) = joinurl (p :: q :: paths)).
Proof.
  split; [apply joinurl_trim |]. split.
  { induction paths as [| x rest [pre IH]].
    - exists "". apply joinurl_single.
    - change (joinurl ((x :: rest) ++ [p]))
        with (x +:+ (if negb (strings_HasSuffix x "/")
                          && negb (bool_decide (rest ++ [p] = []))
                     then "/" else "") +:+ joinurl (rest ++ [p])).
      rewrite IH. eexists. rewrite <- !str_app_assoc. reflexivity. }
  split; [reflexivity |].
  intros Hs. rewrite !joinurl_trim.
  change (trim_inner ((p +:+ "/") :: q :: paths))
    with (trim_slash (p +:+ "/") :: trim_inner (q :: paths)).
  change (trim_inner (p :: q :: paths))
    with (trim_slash p :: trim_inner (q :: paths)).
  rewrite trim_slash_slash. unfold trim_slash. now rewrite Hs.
Qed.

Lemma joinurl_slashes_witness :
  joinurl ["https://host/data/"; "tus/"; "u1"] = joinurl ["https://host/data"; "tus/"; "u1"].
Proof.
  apply (joinurl_slashes ["u1"] "https://host/data" "tus/"). reflexivity.
Defined.

(** X14.  [Upload.URL] changes nothing in the world.  The token it signs
    targets the download endpoint, the segment [tus] and the id of the
    session, joined by single slashes, for the audience [reva], and expires
    the configured number of seconds after the clock reading, as long as
    that number of seconds fits in an [int64] count of nanoseconds.  The
    result is the gateway endpoint and the token joined by a slash; an
    error of the signer gives the empty string and an error in which the
    signer's error can still be found. *)
Theorem URL_outcomes `{Env} (u : Upload) (w : World) :
  let claims := transfer_claims u w in
  let secret := TransferSharedSecret (tknopts u) in
  (URL u w).2 = w
  /\ Target claims
     = String.concat "/"
         [trim_slash (DownloadEndpoint (tknopts u)); "tus"; ID (Session u)]
  /\ Audience claims = "reva"
  /\ (in_int64 (TransferExpires (tknopts u) * 1000000000) ->
      ExpiresAt claims = clock w / 1000000000 + TransferExpires (tknopts u))
  /\ (forall tkn,
         jwt_SignedString claims secret = inl tkn ->
         (URL u w).1
         = (String.concat "/" [trim_slash (DataGatewayEndpoint (tknopts u)); tkn],
            None))
  /\ (forall err,
         jwt_SignedString claims secret = inr err ->
         exists e,
           (URL u w).1 = ("", Some e) /\ errors_Is e err = true).
Proof.
  intros claims secret. subst claims secret. unfold URL.
  split; [now destruct (jwt_SignedString _ _) |].
  split.
  { unfold transfer_claims. cbn [Target]. rewrite joinurl_trim.
    cbn [trim_inner]. reflexivity. }
  split; [reflexivity |].
  split.
  { intros Hfit. unfold transfer_claims. cbn [ExpiresAt].
    rewrite int64_wrap_id by exact Hfit. now rewrite Z.div_add. }
  split.
  - intros tkn ->. now rewrite joinurl_trim.
  - intros err ->. eexists. split; [reflexivity |].
    cbn [errors_Is]. rewrite errors_Is_refl. apply orb_true_r.
Qed.

Lemma URL_outcomes_witness :
  (@URL reva_env upload0 world_wiki).1
  = ("https://host/gateway/jwt.https://host/data/tus/u1", None)
  /\ ExpiresAt (transfer_claims upload0 world_wiki) = 3600.
Proof.
  destruct (@URL_outcomes reva_env upload0 world_wiki)
    as (_ & _ & _ & Hexp & Hok & _).
  split.
  - rewrite (Hok "jwt.https://host/data/tus/u1"); reflexivity.
  - rewrite Hexp; [reflexivity |]. vm_compute. split; discriminate.
Defined.

(** ** Concatenation, continued *)

Lemma os_Open_ok (p : string) (w : World) (f : File) :
  fault_free w ->
  files w !! p = Some f ->
  os_Open p w = (inl p, set_trace w (trace w ++ [COpen p])).
Proof.
  intros Hfree Hp. unfold os_Open, bind, call, exists_file.
  rewrite Hfree. simpl. rewrite Hp.
  now rewrite bool_decide_eq_true_2 by eauto.
Qed.

Lemma os_Open_missing (p : string) (w : World) :
  fault_free w ->
  files w !! p = None ->
  os_Open p w
  = (inr (PathError "open" p ErrNotExist), set_trace w (trace w ++ [COpen p])).
Proof.
  intros Hfree Hp. unfold os_Open, bind, call, exists_file.
  rewrite Hfree. simpl. rewrite Hp.
  now rewrite bool_decide_eq_false_2 by (intros [? ?]; discriminate).
Qed.

Lemma io_Copy_file_ok (d p : string) (w : World) :
  fault_free w ->
  io_Copy d (FileReader (Some p)) w
  = ((Z.of_nat (length (file_content w p)), None),
     set_files (set_trace w (trace w ++ [CRead p; CWrite d]))
       (append_bytes d (file_content w p) (files w))).
Proof.
  intros Hfree. unfold io_Copy, drain, bind, call.
  rewrite Hfree. simpl. rewrite Hfree.
  unfold set_files, set_trace. simpl. now rewrite <- app_assoc.
Qed.

Lemma concat_parts_prefix (d : string) (pre rest : list Upload) :
  forall (w : World) (f : File),
    fault_free w ->
    files w !! d = Some f ->
    Forall (usable_part w d) pre ->
    exists w',
      concat_parts d (pre ++ rest) w = concat_parts d rest w'
      /\ files w'
         = <[d := mkFile (content f ++ part_contents w pre) (xattrs f)]> (files w)
      /\ faults w' = faults w.
Proof.
  induction pre as [| p pre IH]; intros w f Hfree Hd Hall.
  - exists w. split; [reflexivity |]. split; [| reflexivity].
    unfold part_contents. simpl. rewrite app_nil_r.
    symmetry. apply insert_id. rewrite Hd. now destruct f.
  - apply Forall_cons in Hall as [[Hne [fp Hp]] Hall].
    set (w2 := set_files
                 (set_trace w (trace w ++ [COpen (BinPath (Session p));
                                           CRead (BinPath (Session p)); CWrite d]))
                 (<[d := mkFile (content f ++ content fp) (xattrs f)]> (files w))).
    assert (Hstep : concat_parts d ((p :: pre) ++ rest) w
                    = concat_parts d (pre ++ rest) w2).
    { cbn [app concat_parts]. unfold bind at 1.
      rewrite (os_Open_ok _ _ fp Hfree Hp). unfold bind at 1.
      rewrite io_Copy_file_ok by (intros t c; apply Hfree).
      f_equal. subst w2. unfold set_files, set_trace, file_content. simpl.
      rewrite Hp. f_equal; [| now rewrite <- !app_assoc].
      unfold append_bytes. apply map_eq. intros q.
      destruct (decide (d = q)) as [<- | Hq].
      - now rewrite lookup_alter_eq, lookup_insert_eq, Hd.
      - now rewrite lookup_alter_ne, lookup_insert_ne. }
    destruct (IH w2 (mkFile (content f ++ content fp) (xattrs f)))
      as (w' & Hrun & Hfiles & Hfaults).
    + intros t c. apply Hfree.
    + subst w2. simpl. apply lookup_insert_eq.
    + eapply Forall_impl; [exact Hall |]. intros x [Hx [fx Hfx]].
      split; [exact Hx |]. subst w2. simpl.
      rewrite lookup_insert_ne by congruence. eauto.
    + exists w'. split; [now rewrite Hstep |]. split; [| exact Hfaults].
      rewrite Hfiles. subst w2. simpl. rewrite insert_insert_eq.
      f_equal. f_equal. rewrite <- app_assoc. f_equal.
      unfold part_contents. simpl. f_equal.
      * unfold file_content. now rewrite Hp.
      * clear -Hall. induction Hall as [| x l [Hx _] _ IHl]; [reflexivity |].
        simpl. rewrite IHl. f_equal. unfold file_content. simpl.
        now rewrite lookup_insert_ne by congruence.
Qed.

(** X15.  With no call made to fail and the destination present,
    [ConcatUploads] of parts that all exist returns no error and leaves the
    destination holding its former content followed by the contents of the
    parts in order, its attributes untouched.  When a part is missing, the
    call returns the not-exist error of opening that part, and the
    destination holds the contents of the parts before it: what was
    appended stays. *)
Theorem ConcatUploads_fault_free (u : Upload) (pre post : list Upload)
    (p : Upload) (w : World) (f : File) :
  let d := BinPath (Session u) in
  let appended := mkFile (content f ++ part_contents w pre) (xattrs f) in
  fault_free w ->
  files w !! d = Some f ->
  Forall (usable_part w d) pre ->
  ((ConcatUploads u pre w).1 = None
   /\ files (ConcatUploads u pre w).2 !! d = Some appended)
  /\ (files w !! BinPath (Session p) = None ->
      (ConcatUploads u (pre ++ p :: post) w).1
      = Some (PathError "open" (BinPath (Session p)) ErrNotExist)
      /\ files (ConcatUploads u (pre ++ p :: post) w).2 !! d = Some appended).
Proof.
  intros d appended Hfree Hd Hall.
  assert (Hopen : forall ups,
             ConcatUploads u ups w
             = concat_parts d ups (set_trace w (trace w ++ [COpenFile d]))).
  { intros ups. unfold ConcatUploads, bind, os_OpenFile, bind, call, exists_file.
    fold d. rewrite Hfree. simpl. rewrite Hd.
    now rewrite bool_decide_eq_true_2 by eauto. }
  set (w0 := set_trace w (trace w ++ [COpenFile d])) in *.
  assert (Hall0 : Forall (usable_part w0 d) pre) by exact Hall.
  assert (Hpc : part_contents w0 pre = part_contents w pre) by reflexivity.
  split.
  - destruct (concat_parts_prefix d pre [] w0 f) as (w' & Hrun & Hfiles & _);
      [exact Hfree | exact Hd | exact Hall0 |].
    rewrite app_nil_r in Hrun. rewrite Hopen, Hrun. simpl.
    rewrite Hfiles, Hpc. split; [reflexivity | apply lookup_insert_eq].
  - intros Hmiss.
    destruct (concat_parts_prefix d pre (p :: post) w0 f)
      as (w' & Hrun & Hfiles & Hfaults);
      [exact Hfree | exact Hd | exact Hall0 |].
    assert (Hne : BinPath (Session p) <> d) by congruence.
    assert (Hres : ConcatUploads u (pre ++ p :: post) w
                   = (Some (PathError "open" (BinPath (Session p)) ErrNotExist),
                      set_trace w' (trace w' ++ [COpen (BinPath (Session p))]))).
    { rewrite Hopen, Hrun. cbn [concat_parts]. unfold bind at 1.
      rewrite os_Open_missing; [reflexivity | |].
      - intros t c. rewrite Hfaults. apply Hfree.
      - rewrite Hfiles, lookup_insert_ne by congruence. exact Hmiss. }
    rewrite Hres. simpl. rewrite Hfiles, Hpc.
    split; [reflexivity | apply lookup_insert_eq].
Qed.

Lemma ConcatUploads_fault_free_witness :
  let r := ConcatUploads upload0 [upload_a; upload_c; upload_b] world_parts in
  r.1 = Some (PathError "open" "/uploads/c.bin" ErrNotExist)
  /\ file_content r.2 "/uploads/u1.bin" = bytes "ab".
Proof.
  destruct (ConcatUploads_fault_free upload0 [upload_a] [upload_b] upload_c
              world_parts (mkFile [] ∅)) as (_ & Hmiss).
  - intros t c. reflexivity.
  - reflexivity.
  - repeat constructor; [discriminate | eexists; reflexivity].
  - destruct Hmiss as (Herr & Hfiles); [reflexivity |].
    cbv zeta. split; [exact Herr |].
    unfold file_content.
    change (files
              (ConcatUploads upload0 [upload_a; upload_c; upload_b] world_parts).2
              !! "/uploads/u1.bin"
            = Some (mkFile ([] ++ part_contents world_parts [upload_a]) ∅))
      in Hfiles.
    rewrite Hfiles. reflexivity.
Defined.

(** ** Termination, continued *)

Lemma difference_absent (s : gset string) (i : string) :
  i ∉ s -> s ∖ {[i]} = s.
Proof.
  intros Hi. apply set_eq. intros x.
  rewrite elem_of_difference, elem_of_singleton. split; [tauto |].
  intros Hx. split; [exact Hx |]. intros ->. contradiction.
Qed.

Lemma cleanup_bin_free (u : Upload) (w : World) :
  faults w (length (trace w)) (CRemove (BinPath (Session u))) = None ->
  cleanup_bin u w
  = (tt, set_files (set_trace w (trace w ++ [CRemove (BinPath (Session u))]))
           (delete (BinPath (Session u)) (files w))).
Proof.
  intros Hok. destruct (files w !! BinPath (Session u)) as [f |] eqn:Hf.
  - unfold cleanup_bin, os_Remove, bind, call, exists_file. rewrite Hok.
    simpl. rewrite Hf. now rewrite bool_decide_eq_true_2 by eauto.
  - rewrite cleanup_bin_absent by assumption.
    unfold set_files. simpl. now rewrite delete_id.
Qed.

Lemma cleanup_info_free (u : Upload) (w : World) :
  faults w (length (trace w)) (CPurge (ID (Session u))) = None ->
  cleanup_info u w
  = (tt, set_sessions (set_trace w (trace w ++ [CPurge (ID (Session u))]))
           (sessions w ∖ {[ID (Session u)]})).
Proof.
  intros Hok. destruct (decide (ID (Session u) ∈ sessions w)) as [Hin | Hout].
  - unfold cleanup_info, Session_Purge, bind, call. rewrite Hok. simpl.
    now rewrite bool_decide_eq_true_2 by exact Hin.
  - rewrite cleanup_info_absent by assumption.
    now rewrite (difference_absent _ _ Hout).
Qed.

(** X16.  Terminating an upload as [buildUpload] makes it, with no call
    made to fail, removes the staging file and purges the session record,
    makes these two calls only, logs nothing and touches no other file.
    Terminating it again returns nil as well and changes no file, no
    session record and no log entry. *)
Theorem Terminate_twice `{Env} (ctx : Context) (session : tus_Session)
    (pub async : bool) (tknopts : options_TokenOptions) (w : World) :
  let u := buildUpload ctx session pub async tknopts in
  let first := Terminate u w in
  let second := Terminate first.1.2 first.2 in
  fault_free w ->
  first.1 = (None, u)
  /\ trace first.2 = trace w ++ [CRemove (BinPath session); CPurge (ID session)]
  /\ files first.2 = delete (BinPath session) (files w)
  /\ sessions first.2 = sessions w ∖ {[ID session]}
  /\ logs first.2 = logs w
  /\ second.1 = (None, u)
  /\ files second.2 = files first.2
  /\ sessions second.2 = sessions first.2
  /\ logs second.2 = logs first.2.
Proof.
  intros u first second Hfree.
  assert (Hrun : forall w0,
             fault_free w0 ->
             Terminate u w0
             = ((None, u),
                mkWorld (delete (BinPath session) (files w0))
                  (sessions w0 ∖ {[ID session]}) (faults w0)
                  (trace w0 ++ [CRemove (BinPath session); CPurge (ID session)])
                  (logs w0) (clock w0))).
  { intros w0 Hfree0. unfold Terminate, bind at 1. rewrite cleanup_steps.
    unfold node_step, ret. simpl.
    rewrite cleanup_bin_free by apply Hfree0. simpl.
    rewrite cleanup_info_free by apply Hfree0. simpl.
    unfold set_sessions, set_files, set_trace. simpl.
    now rewrite <- app_assoc. }
  subst second first. rewrite (Hrun w Hfree). simpl.
  rewrite Hrun by (intros t c; apply Hfree). simpl.
  repeat split.
  - apply delete_id, lookup_delete_eq.
  - apply difference_absent. intros Hin.
    apply elem_of_difference in Hin as [_ Hout]. apply Hout.
    now apply elem_of_singleton.
Qed.

Lemma Terminate_twice_witness :
  let u := buildUpload (mkContext None None) session0 false false tknopts0 in
  files (@Terminate reva_env u world_wiki).2 = ∅
  /\ sessions (@Terminate reva_env u world_wiki).2 = ∅.
Proof.
  destruct (@Terminate_twice reva_env (mkContext None None) session0 false false
              tknopts0 world_wiki) as (_ & _ & Hf & Hs & _).
  - intros t c. reflexivity.
  - cbv zeta. rewrite Hf, Hs. split; vm_compute; reflexivity.
Defined.
